(** * lytgae: gateway connection statistics bridge

    A shallow embedding of [main.go]: the [Gateway] snapshot and its
    [String] method (which also publishes the Prometheus gauges), the
    [Client] with [connectEventstream] and the receive loop [getEvents],
    the reporter loop of [main] that maintains the [gateways] map, and the
    start-up path: the head of [main], [NewClient] and [getGateways].

    Library calls are modelled at their boundary:
    - a gRPC stream session is a script of [Recv] results; a [Recv] on an
      exhausted script never returns ([Blocked]);
    - [time.Time.Format] is a parameter [Format] of the development;
    - a gauge vector is a finite map from label pairs to samples. *)

From Stdlib Require Import ZArith Lia Ascii.
From stdpp Require Import gmap strings list fin_maps sorting pretty.

Local Open Scope Z_scope.

(** ** Machine integers *)

(** Two's complement wrap-around of Go's [int64]. *)
Definition wrap64 (z : Z) : Z := (z + 2 ^ 63) `mod` 2 ^ 64 - 2 ^ 63.

(** ** package time *)

Module time.

(** A [time.Time] built by [time.Unix] and moved to UTC: the seconds since
    the Unix epoch and the nanoseconds within that second. *)
Record Time := { unixSec : Z; nsec : Z }.

(** [time.Unix(sec, nsec)]: nanoseconds outside [0, 999999999] are
    carried into the seconds. *)
Definition Unix (sec nsec : Z) : Time :=
  if decide (nsec < 0 ∨ nsec >= 1000000000) then
    let n := nsec `quot` 1000000000 in
    let sec := wrap64 (sec + n) in
    let nsec := nsec - n * 1000000000 in
    if decide (nsec < 0)
    then {| unixSec := wrap64 (sec - 1); nsec := nsec + 1000000000 |}
    else {| unixSec := sec; nsec := nsec |}
  else {| unixSec := sec; nsec := nsec |}.

(** The method [t.Unix()]. *)
Definition Time_Unix (t : Time) : Z := unixSec t.

End time.

(** ** package timestamppb *)

Module timestamppb.

Record Timestamp := { Seconds : Z; Nanos : Z }.

(** Getters accept a nil pointer. *)
Definition GetSeconds (x : option Timestamp) : Z :=
  match x with Some ts => Seconds ts | None => 0 end.
Definition GetNanos (x : option Timestamp) : Z :=
  match x with Some ts => Nanos ts | None => 0 end.

(** [x.AsTime()] is [time.Unix(x.GetSeconds(), x.GetNanos()).UTC()]. *)
Definition AsTime (x : option Timestamp) : time.Time :=
  time.Unix (GetSeconds x) (GetNanos x).

End timestamppb.

(** ** package ttnpb: the messages the program reads *)

Module ttnpb.

(** The fields of [GatewayConnectionStats] that [main] reads; counters are
    [uint64]. *)
Record GatewayConnectionStats := {
  ConnectedAt : option timestamppb.Timestamp;
  LastUplinkReceivedAt : option timestamppb.Timestamp;
  UplinkCount : Z;
  LastDownlinkReceivedAt : option timestamppb.Timestamp;
  DownlinkCount : Z;
  LastTxAcknowledgmentReceivedAt : option timestamppb.Timestamp;
  TxAcknowledgmentCount : Z;
  }.

(** Generated getters: a nil receiver yields the zero value. *)
Definition GetConnectedAt (x : option GatewayConnectionStats) :=
  x ≫= ConnectedAt.
Definition GetLastUplinkReceivedAt (x : option GatewayConnectionStats) :=
  x ≫= LastUplinkReceivedAt.
Definition GetLastDownlinkReceivedAt (x : option GatewayConnectionStats) :=
  x ≫= LastDownlinkReceivedAt.
Definition GetLastTxAcknowledgmentReceivedAt (x : option GatewayConnectionStats) :=
  x ≫= LastTxAcknowledgmentReceivedAt.
Definition GetUplinkCount (x : option GatewayConnectionStats) : Z :=
  match x with Some s => UplinkCount s | None => 0 end.
Definition GetDownlinkCount (x : option GatewayConnectionStats) : Z :=
  match x with Some s => DownlinkCount s | None => 0 end.
Definition GetTxAcknowledgmentCount (x : option GatewayConnectionStats) : Z :=
  match x with Some s => TxAcknowledgmentCount s | None => 0 end.

(** [EntityIdentifiers]: a oneof over the entity kinds. [NoIds] stands for
    an unset oneof and for a nil pointer, which the getters treat alike. *)
Inductive EntityIdentifiers :=
  | ApplicationIds (application_id : string)
  | ClientIds (client_id : string)
  | DeviceIds (application_id device_id : string)
  | GatewayIds (gateway_id : string)
  | OrganizationIds (organization_id : string)
  | UserIds (user_id : string)
  | NoIds.

(** [id.GetGatewayIds().GetGatewayId()]: the empty string unless the
    identifier is a gateway identifier. *)
Definition GetGatewayId (x : EntityIdentifiers) : string :=
  match x with
  | GatewayIds gateway_id => gateway_id
  | _ => ""
  end.

End ttnpb.

(** ** Prometheus gauges *)

(** A sample is the [float64] conversion of an integer; the conversion is
  kept symbolic. *)
Inductive float64 := float64_of (z : Z).

(** The two gauge vectors, keyed by the label values (gateway, type). *)
Record Registry := {
  gwTime : gmap (string * string) float64;
  gwCount : gmap (string * string) float64;
}.

Definition emptyRegistry : Registry := {| gwTime := ∅; gwCount := ∅ |}.

(** [gwTime.WithLabelValues(gateway, type).Set(v)] *)
Definition gwTime_Set (gateway type : string) (v : float64) (r : Registry) : Registry :=
  {| gwTime := <[(gateway, type) := v]> (gwTime r); gwCount := gwCount r |}.

(** [gwCount.WithLabelValues(gateway, type).Set(v)] *)
Definition gwCount_Set (gateway type : string) (v : float64) (r : Registry) : Registry :=
  {| gwTime := gwTime r; gwCount := <[(gateway, type) := v]> (gwCount r) |}.

Definition timeFmt : string := "2006-01-02 15:04:05".

(** [strings.Join] *)
Definition strings_Join (elems : list string) (sep : string) : string :=
  String.concat sep elems.

(** ** type Gateway *)

Module Gateway.

Record t := {
  id : string;
  connectTime : time.Time;
  uplinkTime : time.Time;
  uplinkCount : Z;
  downlinkTime : time.Time;
  downlinkCount : Z;
  txAckTime : time.Time;
  txAckCount : Z;
}.

Section String.
(** [t.Format(layout)] of the standard library. *)
Context (Format : string → time.Time → string).

(** The body of [String] up to the final join: the [parts] slice and the
    registry after the gauge updates. *)
Definition parts (g : t) (r : Registry) : list string * Registry :=
  let parts := [id g] in
  let '(parts, r) :=
    if decide (time.Time_Unix (connectTime g) ≠ 0) then
      (parts ++ ["connected: " +:+ Format timeFmt (connectTime g)],
       gwTime_Set (id g) "connect" (float64_of (time.Time_Unix (connectTime g))) r)
    else (parts, r) in
  let '(parts, r) :=
    if decide (uplinkCount g ≠ 0) then
      (parts ++ ["uplinks: " +:+ pretty (uplinkCount g) +:+ " (last "
                   +:+ Format timeFmt (uplinkTime g) +:+ ")"],
       gwCount_Set (id g) "uplink" (float64_of (uplinkCount g))
         (gwTime_Set (id g) "uplink" (float64_of (time.Time_Unix (uplinkTime g))) r))
    else (parts, r) in
  let '(parts, r) :=
    if decide (downlinkCount g ≠ 0) then
      (parts ++ ["downlinks: " +:+ pretty (downlinkCount g) +:+ " (last "
                   +:+ Format timeFmt (downlinkTime g) +:+ ")"],
       gwCount_Set (id g) "downlink" (float64_of (downlinkCount g))
         (gwTime_Set (id g) "downlink" (float64_of (time.Time_Unix (downlinkTime g))) r))
    else (parts, r) in
  let '(parts, r) :=
    if decide (txAckCount g ≠ 0) then
      (parts ++ ["txAck: " +:+ pretty (txAckCount g) +:+ " (last "
                   +:+ Format timeFmt (txAckTime g) +:+ ")"],
       gwCount_Set (id g) "txack" (float64_of (txAckCount g))
         (gwTime_Set (id g) "txack" (float64_of (time.Time_Unix (txAckTime g))) r))
    else (parts, r) in
  (parts, r).

(** [func (g Gateway) String() string], with the registry threaded
    through. *)
Definition String (g : t) (r : Registry) : string * Registry :=
  let '(parts, r) := parts g r in
  (strings_Join parts " ", r).

End String.

End Gateway.

(** ** Errors *)

(** gRPC status codes, which the [errors] package classifies by. *)
Inductive Code :=
  | OK | Canceled | Unknown | InvalidArgument | DeadlineExceeded | NotFound
  | AlreadyExists | PermissionDenied | ResourceExhausted | FailedPrecondition
  | Aborted | OutOfRange | Unimplemented | Internal | Unavailable | DataLoss
  | Unauthenticated.

(** An [error] value: its status code and the text of [err.Error()]. *)
Record error := { code : Code; Error : string }.

Module errors.

(** [errors.IsCanceled] *)
Definition IsCanceled (err : error) : bool :=
  match code err with Canceled => true | _ => false end.

(** [errors.IsUnavailable] *)
Definition IsUnavailable (err : error) : bool :=
  match code err with Unavailable => true | _ => false end.

End errors.

(** ** package events *)

Module events.

(** The dynamic value returned by [ev.Data()]. *)
Inductive Payload :=
  | DataNil
  | DataStats (data : option ttnpb.GatewayConnectionStats)
  | DataOther (type_name : string).

(** The rendering of the verb [%T]. *)
Definition typeName (d : Payload) : string :=
  match d with
  | DataNil => "<nil>"
  | DataStats _ => "*ttnpb.GatewayConnectionStats"
  | DataOther type_name => type_name
  end.

(** A decoded event, through its accessors [Name], [Identifiers], [Data]. *)
Record Event := {
  Name : string;
  Identifiers : list ttnpb.EntityIdentifiers;
  Data : Payload;
}.

(** A raw [*ttnpb.Event] as received from the stream: what [FromProto] reads
    from it, with the outcome of unmarshalling its payload. *)
Record ProtoEvent := {
  pbName : string;
  pbIdentifiers : list ttnpb.EntityIdentifiers;
  pbData : Payload + error;
}.

(** [events.FromProto]: fails when the payload cannot be unmarshalled. *)
Definition FromProto (pb : ProtoEvent) : Event + error :=
  match pbData pb with
  | inl d => inl {| Name := pbName pb; Identifiers := pbIdentifiers pb; Data := d |}
  | inr err => inr err
  end.

End events.

(** ** The network, as seen by the client *)

(** One result of [Recv] on a stream session. *)
Inductive RecvResult :=
  | RecvOk (pEvent : events.ProtoEvent)
  | RecvErr (err : error).

(** One result of [client.Stream]: a session, given by the results its
    successive [Recv] calls will return, or an error. *)
Inductive StreamResult :=
  | StreamOk (recvs : list RecvResult)
  | StreamErr (err : error).

(** The network answers the [n]-th call of [client.Stream] with
    [net n]. *)
Definition Network := nat → StreamResult.

(** What the client does to the outside, in order. *)
Inductive Effect :=
  | EStream (identifiers : list ttnpb.EntityIdentifiers)
  | ELog (msg : string)
  | ESleep (seconds : Z)
  | ESend (ev : events.Event).

(** ** type Client *)

Module Client.

(** [esc] holds the handle of the current session: the index of the
    [Stream] call that opened it. [ctx] and [conn] are opaque handles. *)
Record t := {
  server : string;
  apikey : string;
  gateways : list ttnpb.EntityIdentifiers;
  esc : option nat;
}.

Definition set_esc (c : t) (h : nat) : t :=
  {| server := server c; apikey := apikey c; gateways := gateways c; esc := Some h |}.

(** How a call of [getEvents] ends: it returns an error, or it waits in
    [Recv] for a message that never comes. It has no other exit. *)
Inductive Result :=
  | Returned (msg : string)
  | Blocked.

Record Run := {
  effects : list Effect;
  client : t;
  result : Result;
}.

Definition after (es : list Effect) (r : Run) : Run :=
  {| effects := es ++ effects r; client := client r; result := result r |}.

Section Network.
Context (net : Network).

(** [func (c *Client) connectEventstream() error], as the [n]-th call of
    [Stream]: the request carries [c.gateways]; on success [c.esc] is set. *)
Definition connectEventstream (n : nat) (c : t) : list Effect * t * option error :=
  match net n with
  | StreamErr err => ([EStream (gateways c)], c, Some err)
  | StreamOk _ => ([EStream (gateways c)], set_esc c n, None)
  end.

(** The [for] loop of [getEvents], reading the results [recvs] of the
    session [c.esc]; [n] counts the [Stream] calls made so far. *)
Fixpoint recvLoop (n : nat) (c : t) (recvs : list RecvResult) : Run :=
  match recvs with
  | [] => {| effects := []; client := c; result := Blocked |}
  | RecvErr err :: recvs =>
      if errors.IsCanceled err then recvLoop n c recvs
      else if errors.IsUnavailable err then
        let '(es, c', err') := connectEventstream n c in
        let es := [ELog "Lost connection, trying to reconnect"; ESleep 5] ++ es in
        match err' with
        | Some err' =>
            {| effects := es; client := c';
               result := Returned ("during reconnect: " +:+ Error err') |}
        | None =>
            {| effects := es; client := c';
               result := Returned ("recv: " +:+ Error err) |}
        end
      else
        {| effects := []; client := c; result := Returned ("recv: " +:+ Error err) |}
  | RecvOk pEvent :: recvs =>
      match events.FromProto pEvent with
      | inr err =>
          {| effects := []; client := c;
             result := Returned ("FromProto: " +:+ Error err) |}
      | inl eEvent => after [ESend eEvent] (recvLoop n c recvs)
      end
  end.

(** The results that [( *c.esc).Recv()] will return, one per call: those of
    the session whose handle [c.esc] holds. *)
Definition pending (c : t) : list RecvResult :=
  match esc c with
  | Some h => match net h with StreamOk recvs => recvs | StreamErr _ => [] end
  | None => []
  end.

(** [func (c *Client) getEvents(ec chan<- events.Event) error] *)
Definition getEvents (c : t) : Run :=
  let '(es, c', err) := connectEventstream 0%nat c in
  match err with
  | Some err =>
      {| effects := es; client := c';
         result := Returned ("connectEventstream: " +:+ Error err) |}
  | None => after es (recvLoop 1%nat c' (pending c'))
  end.

(** The events put on the channel [ec], in order. *)
Definition sent (r : Run) : list events.Event :=
  omap (λ e, match e with ESend ev => Some ev | _ => None end) (effects r).

End Network.

End Client.

(** ** Sorting strings *)

(** Go's order on strings: byte-wise lexicographic. *)
Definition string_le : relation string := λ a b, String.leb a b = true.

#[export] Instance string_le_dec : RelDecision string_le :=
  λ a b, decide (String.leb a b = true).

(** [maps.Keys]: the keys of the map, in an order the caller cannot rely
    on. *)
Definition maps_Keys {V} (m : gmap string V) : list string := elements (dom m).

(** [slices.Sort] on a slice of strings. *)
Definition slices_Sort (k : list string) : list string := merge_sort string_le k.

(** ** func main: the reporter goroutine *)

Module main.

(** The variables of the goroutine that ranges over [ch]: the map
    [gateways], the gauge registry that [String] writes to, and the lines
    given to [log.Printf]. *)
Record State := {
  gateways : gmap string Gateway.t;
  registry : Registry;
  logged : list string;
}.

(** [gateways := make(map[string]*Gateway)] *)
Definition initial : State :=
  {| gateways := ∅; registry := emptyRegistry; logged := [] |}.

(** The literal [&Gateway{...}] built for [gwid] from [data]. *)
Definition newGateway (gwid : string) (data : option ttnpb.GatewayConnectionStats)
  : Gateway.t :=
  {| Gateway.id := gwid;
     Gateway.connectTime := timestamppb.AsTime (ttnpb.GetConnectedAt data);
     Gateway.uplinkCount := ttnpb.GetUplinkCount data;
     Gateway.downlinkCount := ttnpb.GetDownlinkCount data;
     Gateway.txAckCount := ttnpb.GetTxAcknowledgmentCount data;
     Gateway.uplinkTime := timestamppb.AsTime (ttnpb.GetLastUplinkReceivedAt data);
     Gateway.downlinkTime := timestamppb.AsTime (ttnpb.GetLastDownlinkReceivedAt data);
     Gateway.txAckTime :=
       timestamppb.AsTime (ttnpb.GetLastTxAcknowledgmentReceivedAt data) |}.

(** [for _, id := range ev.Identifiers() { ...; gateways[gwid] = gw }] *)
Definition storeAll (data : option ttnpb.GatewayConnectionStats)
    (ids : list ttnpb.EntityIdentifiers) (gateways : gmap string Gateway.t)
  : gmap string Gateway.t :=
  foldl (λ gateways id,
           let gwid := ttnpb.GetGatewayId id in
           <[gwid := newGateway gwid data]> gateways)
        gateways ids.

Section Reporter.
Context (Format : string → time.Time → string).

(** [log.Printf("Gateway %s", gateways[g])]: the verb calls [String], which
    also sets the gauges; a nil pointer prints as [<nil>]. *)
Definition logGateway (gateways : gmap string Gateway.t)
    (acc : Registry * list string) (g : string) : Registry * list string :=
  let '(r, logged) := acc in
  match gateways !! g with
  | Some gw =>
      let '(s, r) := Gateway.String Format gw r in
      (r, logged ++ ["Gateway " +:+ s])
  | None => (r, logged ++ ["Gateway <nil>"])
  end.

(** The line logged for one gateway; its text does not depend on the
    registry. *)
Definition summary (gw : Gateway.t) : string :=
  "Gateway " +:+ (Gateway.String Format gw emptyRegistry).1.

(** The body of [for ev := range ch]. *)
Definition handle (st : State) (ev : events.Event) : State :=
  if decide (events.Name ev ≠ "gs.gateway.connection.stats") then st
  else
    match events.Data ev with
    | events.DataStats data =>
        let gateways := storeAll data (events.Identifiers ev) (gateways st) in
        let k := slices_Sort (maps_Keys gateways) in
        let '(r, logged) := foldl (logGateway gateways) (registry st, logged st) k in
        {| gateways := gateways; registry := r; logged := logged |}
    | d =>
        {| gateways := gateways st; registry := registry st;
           logged := logged st
                     ++ ["event data seems to be of type " +:+ events.typeName d] |}
    end.

(** The goroutine, run over the events that arrive on [ch]. *)
Definition reporter (evs : list events.Event) (st : State) : State :=
  foldl handle st evs.

(** [main] after start-up: [getEvents] feeds the reporter through [ch]. *)
Definition pipeline (net : Network) (c : Client.t) : State :=
  reporter (Client.sent (Client.getEvents net c)) initial.

End Reporter.

End main.

(** ** package strings *)

(** [strings.Split(s, sep)] for a separator of one byte: the pieces of [s]
    between the separators, at least one piece. *)
Fixpoint strings_Split (s : string) (sep : Ascii.ascii) : list string :=
  match s with
  | EmptyString => [""]
  | String c s' =>
      if decide (c = sep) then "" :: strings_Split s' sep
      else match strings_Split s' sep with
           | piece :: pieces => String c piece :: pieces
           | [] => [String c ""]
           end
  end.

(** ** Start-up: getGateways, NewClient and the head of main *)

Module setup.

(** [ttnpb.GatewayIdentifiers] and the part of [ttnpb.Gateway] the program
    reads; [Ids] may be a nil pointer. *)
Record GatewayIdentifiers := { GatewayId : string }.
Record Gateway := { Ids : option GatewayIdentifiers }.

(** [ids.GetGatewayId()] *)
Definition GetGatewayId (ids : option GatewayIdentifiers) : string :=
  match ids with Some ids => GatewayId ids | None => "" end.

(** [gw.IDString()] *)
Definition IDString (gw : Gateway) : string := GetGatewayId (Ids gw).

(** [ids.GetEntityIdentifiers()]: the gateway alternative of the oneof,
    wrapping [ids]; a nil [ids] reads back as the empty identifier. *)
Definition GetEntityIdentifiers (ids : option GatewayIdentifiers)
  : ttnpb.EntityIdentifiers :=
  ttnpb.GatewayIds (GetGatewayId ids).

(** The calls made to the outside during start-up. *)
Inductive Call :=
  | Dial (server : string)
  | ListGateways.

(** The outside: the result of [grpc.NewClient] for a target, and the result
    of the registry's [List]. *)
Record World := {
  dial : string → option error;
  List : list Gateway + error;
}.

(** A start-up step: the calls made, the lines logged, and a client or the
    text of the error. *)
Record Boot := {
  calls : list Call;
  logs : list string;
  result : Client.t + string;
}.

Section World.
Context (w : World).

(** [func (c *Client) getGateways() ([]*ttnpb.EntityIdentifiers, error)] *)
Definition getGateways (c : Client.t)
  : list string * list ttnpb.EntityIdentifiers * option string :=
  let rtn := [] in
  let logs := ["Get gateways"] in
  match List w with
  | inr err => (logs, rtn, Some ("list gateways: " +:+ Error err))
  | inl gws =>
      let '(logs, rtn) :=
        foldl (λ '(logs, rtn) gw,
                 (logs ++ ["Found gateway " +:+ IDString gw],
                  rtn ++ [GetEntityIdentifiers (Ids gw)]))
              (logs, rtn) gws in
      (logs, rtn, None)
  end.

(** [func NewClient(server string, apikey string, gateways []string)
    ( *Client, error)] *)
Definition NewClient (server apikey : string) (gateways : list string) : Boot :=
  match dial w server with
  | Some err =>
      {| calls := [Dial server]; logs := [];
         result := inr ("NewClient: " +:+ Error err) |}
  | None =>
      let client :=
        {| Client.server := server; Client.apikey := apikey;
           Client.gateways := []; Client.esc := None |} in
      if decide (length gateways = 0%nat) then
        let '(logs, gateways, err) := getGateways client in
        match err with
        | Some err =>
            {| calls := [Dial server; ListGateways]; logs := logs;
               result := inr ("getGateways: " +:+ err) |}
        | None =>
            {| calls := [Dial server; ListGateways]; logs := logs;
               result := inl {| Client.server := server; Client.apikey := apikey;
                                Client.gateways := gateways;
                                Client.esc := None |} |}
        end
      else
        {| calls := [Dial server]; logs := [];
           result :=
             inl {| Client.server := server; Client.apikey := apikey;
                    Client.gateways :=
                      foldl (λ gateways gw,
                               gateways
                               ++ [GetEntityIdentifiers (Some {| GatewayId := gw |})])
                            (Client.gateways client) gateways;
                    Client.esc := None |} |}
  end.

(** The head of [func main], up to and including [NewClient]: [env] is the
    process environment. An error result stands for [log.Fatal]: its text is
    logged and the process exits. *)
Definition start (env : gmap string string) : Boot :=
  match env !! "LYTGAE_APIKEY" with
  | None =>
      {| calls := []; logs := []; result := inr "LYTGAE_APIKEY is not set" |}
  | Some apikey =>
      let '(server, logs0) :=
        match env !! "LYTGAE_SERVER" with
        | Some server => (server, [])
        | None =>
            ("eu1.cloud.thethings.network:8884",
             ["LYTGAE_SERVER is not set, fallback to eu1.cloud.thethings.network:8884"])
        end in
      let gws :=
        match env !! "LYTGAE_GW" with
        | Some egws => strings_Split egws ","%char
        | None => []
        end in
      let b := NewClient server apikey gws in
      {| calls := calls b; logs := logs0 ++ logs b; result := result b |}
  end.

End World.

End setup.

(** ** A formatter to run the examples with *)

(** Decimal digits of [z], padded with zeros to [w] digits. *)
Fixpoint digits (w : nat) (z : Z) : string :=
  match w with
  | O => ""
  | S w => digits w (z `div` 10) +:+ pretty (z `mod` 10)
  end.

(** The layout [2006-01-02 15:04:05] in UTC, for the years 0000 to 9999. *)
Definition formatUTC (layout : string) (t : time.Time) : string :=
  let s := time.Time_Unix t in
  let days := s `div` 86400 in
  let rem := s `mod` 86400 in
  let z := days + 719468 in
  let era := z `div` 146097 in
  let doe := z - era * 146097 in
  let yoe := (doe - doe `div` 1460 + doe `div` 36524 - doe `div` 146096) `div` 365 in
  let doy := doe - (365 * yoe + yoe `div` 4 - yoe `div` 100) in
  let mp := (5 * doy + 2) `div` 153 in
  let d := doy - (153 * mp + 2) `div` 5 + 1 in
  let m := if decide (mp < 10) then mp + 3 else mp - 9 in
  let y := yoe + era * 400 + (if decide (m <= 2) then 1 else 0) in
  digits 4 y +:+ "-" +:+ digits 2 m +:+ "-" +:+ digits 2 d +:+ " "
    +:+ digits 2 (rem `div` 3600) +:+ ":" +:+ digits 2 ((rem `mod` 3600) `div` 60)
    +:+ ":" +:+ digits 2 (rem `mod` 60).

(** ** Inputs for the examples *)

Module sample.

Definition stamp (s : Z) : option timestamppb.Timestamp :=
  Some {| timestamppb.Seconds := s; timestamppb.Nanos := 0 |}.

Definition t1 : Z := 1700000000.
Definition t2 : Z := 1700000060.

(** Statistics with [n] uplinks, the last one at second [last], and nothing
    else set. *)
Definition uplinks (n last : Z) : ttnpb.GatewayConnectionStats :=
  {| ttnpb.ConnectedAt := None;
     ttnpb.LastUplinkReceivedAt := stamp last;
     ttnpb.UplinkCount := n;
     ttnpb.LastDownlinkReceivedAt := None;
     ttnpb.DownlinkCount := 0;
     ttnpb.LastTxAcknowledgmentReceivedAt := None;
     ttnpb.TxAcknowledgmentCount := 0 |}.

Definition statsEvent (ids : list string) (data : ttnpb.GatewayConnectionStats)
  : events.Event :=
  {| events.Name := "gs.gateway.connection.stats";
     events.Identifiers := ttnpb.GatewayIds <$> ids;
     events.Data := events.DataStats (Some data) |}.

Definition E1 : events.Event := statsEvent ["gw1"] (uplinks 3 t1).
Definition E2 : events.Event := statsEvent ["gw1"] (uplinks 5 t2).
Definition EAB : events.Event := statsEvent ["B"; "A"] (uplinks 7 t1).

(** An event of the recognized name with a payload of another type. *)
Definition status : events.Event :=
  {| events.Name := "gs.gateway.connection.stats";
     events.Identifiers := [ttnpb.GatewayIds "gw1"];
     events.Data := events.DataOther "*ttnpb.GatewayStatus" |}.

(** The message that decodes to [ev]. *)
Definition raw (ev : events.Event) : events.ProtoEvent :=
  {| events.pbName := events.Name ev;
     events.pbIdentifiers := events.Identifiers ev;
     events.pbData := inl (events.Data ev) |}.

(** A message whose payload cannot be unmarshalled. *)
Definition garbled : events.ProtoEvent :=
  {| events.pbName := "gs.gateway.connection.stats";
     events.pbIdentifiers := [ttnpb.GatewayIds "gw1"];
     events.pbData := inr {| code := Unknown; Error := "proto: cannot parse" |} |}.

Definition canceled : error := {| code := Canceled; Error := "context canceled" |}.
Definition unavailable : error :=
  {| code := Unavailable; Error := "transport is closing" |}.

Definition client : Client.t :=
  {| Client.server := "eu1.cloud.thethings.network:8884";
     Client.apikey := "NNSXS.KEY";
     Client.gateways := [ttnpb.GatewayIds "gw1"];
     Client.esc := None |}.

(** A network on which every [Stream] call fails. *)
Definition down : Network := λ _, StreamErr unavailable.

(** A network on which every [Stream] call opens a silent session. *)
Definition quiet : Network := λ _, StreamOk [].

(** A snapshot with every counter and time at zero. *)
Definition gwA : Gateway.t := main.newGateway "gwA" None.

End sample.

(** ** Predicates used in the statements *)

(** Every record is stored under its own identifier. *)
Definition keysConsistent (gateways : gmap string Gateway.t) : Prop :=
  ∀ k gw, gateways !! k = Some gw → Gateway.id gw = k.

(** An event the reporter applies to the map. *)
Definition recognized (ev : events.Event)
    (data : option ttnpb.GatewayConnectionStats) : Prop :=
  events.Name ev = "gs.gateway.connection.stats"
  ∧ events.Data ev = events.DataStats data.

(** The gateway identifiers an event names. *)
Definition named (ev : events.Event) : list string :=
  ttnpb.GetGatewayId <$> events.Identifiers ev.

(** A clause of a summary line that starts with [label]. *)
Definition isClause (label clause : string) : bool := String.prefix label clause.

(** The identifier sets of the [Stream] requests of a run, in order. *)
Definition requests (r : Client.Run) : list (list ttnpb.EntityIdentifiers) :=
  omap (λ e, match e with EStream ids => Some ids | _ => None end)
       (Client.effects r).

(** A [Recv] result after which the loop of [getEvents] iterates again: a
    Canceled error, or a message that [FromProto] decodes. *)
Definition passes (r : RecvResult) : Prop :=
  match r with
  | RecvErr err => errors.IsCanceled err = true
  | RecvOk pEvent =>
      match events.FromProto pEvent with inl _ => True | inr _ => False end
  end.

(** The channel sends that a list of [Recv] results gives rise to when all of
    them pass. *)
Definition forwarded (recvs : list RecvResult) : list Effect :=
  omap (λ r, match r with
             | RecvOk pEvent =>
                 match events.FromProto pEvent with
                 | inl eEvent => Some (ESend eEvent)
                 | inr _ => None
                 end
             | RecvErr _ => None
             end) recvs.

(** The network [net] with the first session replaced by [recvs]. *)
Definition withSession (net : Network) (recvs : list RecvResult) : Network :=
  λ n, match n with O => StreamOk recvs | S _ => net n end.

(** The decode contract as the specification words it: whatever a received
    message carries, the receive loop goes on with the results after it. *)
Definition decoding_never_aborts : Prop :=
  ∀ (net : Network) (n : nat) (c : Client.t) pEvent recvs,
    Client.result (Client.recvLoop net n c (RecvOk pEvent :: recvs))
    = Client.result (Client.recvLoop net n c recvs).

(** ** Further inputs for the examples *)

Module fixture.

(** A world in which the dial succeeds and the registry lists two gateways,
    the second without identifiers. *)
Definition world : setup.World :=
  {| setup.dial := λ _, None;
     setup.List := inl [ {| setup.Ids := Some {| setup.GatewayId := "gw9" |} |};
                         {| setup.Ids := None |} ] |}.

(** An environment with the key and two gateway names, and no server. *)
Definition env : gmap string string :=
  {[ "LYTGAE_APIKEY" := "NNSXS.KEY"; "LYTGAE_GW" := "gw1,gw2" ]}.

(** An error that is neither Canceled nor Unavailable. *)
Definition internal : error := {| code := Internal; Error := "stream reset" |}.

(** Statistics with a connect time and [n] uplinks. *)
Definition connected (n : Z) : ttnpb.GatewayConnectionStats :=
  {| ttnpb.ConnectedAt := sample.stamp sample.t1;
     ttnpb.LastUplinkReceivedAt := sample.stamp sample.t2;
     ttnpb.UplinkCount := n;
     ttnpb.LastDownlinkReceivedAt := None;
     ttnpb.DownlinkCount := 0;
     ttnpb.LastTxAcknowledgmentReceivedAt := None;
     ttnpb.TxAcknowledgmentCount := 0 |}.

Definition E3 : events.Event := sample.statsEvent ["gw2"] (sample.uplinks 9 sample.t2).
Definition EC : events.Event := sample.statsEvent ["gw1"] (connected 4).

(** A recognized event that carries an application identifier. *)
Definition EApp : events.Event :=
  {| events.Name := "gs.gateway.connection.stats";
     events.Identifiers := [ttnpb.ApplicationIds "app1"];
     events.Data := events.DataStats (Some (sample.uplinks 2 sample.t1)) |}.

(** A session that delivers [E1], then fails with [internal]. *)
Definition broken : Network :=
  withSession sample.quiet
    ([RecvOk (sample.raw sample.E1)] ++ RecvErr internal :: [RecvOk (sample.raw sample.E2)]).

End fixture.

(** The events a list of [Recv] results decodes to, in order. *)
Definition delivered (recvs : list RecvResult) : list events.Event :=
  omap (λ r, match r with
             | RecvOk pEvent =>
                 match events.FromProto pEvent with
                 | inl eEvent => Some eEvent
                 | inr _ => None
                 end
             | RecvErr _ => None
             end) recvs.

(** The durations of the sleeps of a run, in order. *)
Definition sleeps (r : Client.Run) : list Z :=
  omap (λ e, match e with ESleep seconds => Some seconds | _ => None end)
       (Client.effects r).

(** A reporter state that already holds samples: the state after [E1], whose
    registry has the uplink gauges of [gw1], with one more sample labelled
    with a gateway that is not in the map. *)
Definition seeded : main.State :=
  let st := main.handle formatUTC main.initial sample.E1 in
  {| main.gateways := main.gateways st;
     main.registry := gwTime_Set "gw0" "connect" (float64_of 5) (main.registry st);
     main.logged := main.logged st |}.

(** * Properties *)

(** ** The order on strings and the sorted key list *)

Lemma string_compare_le_trans (a b c : string) :
  String.compare a b ≠ Gt → String.compare b c ≠ Gt → String.compare a c ≠ Gt.
Proof.
  revert b c; induction a as [|x a IH]; intros [|y b] [|z c]; simpl;
    try congruence.
  unfold Ascii.compare.
  destruct (N.compare_spec (Ascii.N_of_ascii x) (Ascii.N_of_ascii y)),
           (N.compare_spec (Ascii.N_of_ascii y) (Ascii.N_of_ascii z)),
           (N.compare_spec (Ascii.N_of_ascii x) (Ascii.N_of_ascii z));
    try congruence; try lia; eauto.
Qed.

Lemma string_le_compare (a b : string) : string_le a b ↔ String.compare a b ≠ Gt.
Proof.
  unfold string_le, String.leb. destruct (String.compare a b); split; congruence.
Qed.

#[export] Instance string_le_trans : Transitive string_le.
Proof.
  intros a b c. rewrite !string_le_compare. apply string_compare_le_trans.
Qed.

#[export] Instance string_le_total : Total string_le.
Proof. intros a b. apply String.leb_total. Qed.

#[export] Instance string_le_antisym : AntiSymm (=) string_le.
Proof. intros a b. apply String.leb_antisym. Qed.

Lemma slices_Sort_sorted (k : list string) : Sorted string_le (slices_Sort k).
Proof. apply (Sorted_merge_sort string_le). Qed.

Lemma slices_Sort_perm (k : list string) : slices_Sort k ≡ₚ k.
Proof. apply (merge_sort_Permutation string_le). Qed.

(** The sorted slice depends only on the set of keys, not on the order in
    which [maps.Keys] lists them. *)
Lemma slices_Sort_order_irrelevant (k k' : list string) :
  k ≡ₚ k' → slices_Sort k = slices_Sort k'.
Proof.
  intros Hp. apply (Sorted_unique string_le); auto using slices_Sort_sorted.
  by rewrite !slices_Sort_perm.
Qed.

Lemma elem_of_maps_Keys {V} (m : gmap string V) (g : string) :
  g ∈ maps_Keys m ↔ is_Some (m !! g).
Proof. unfold maps_Keys. by rewrite elem_of_elements, elem_of_dom. Qed.

Lemma elem_of_sorted_keys {V} (m : gmap string V) (g : string) :
  g ∈ slices_Sort (maps_Keys m) ↔ is_Some (m !! g).
Proof. by rewrite slices_Sort_perm, elem_of_maps_Keys. Qed.

Lemma NoDup_sorted_keys {V} (m : gmap string V) :
  NoDup (slices_Sort (maps_Keys m)).
Proof. rewrite slices_Sort_perm. apply NoDup_elements. Qed.

(** ** The map update of one event *)

Lemma storeAll_lookup data ids (m : gmap string Gateway.t) (k : string) :
  main.storeAll data ids m !! k =
    if decide (k ∈ ttnpb.GetGatewayId <$> ids)
    then Some (main.newGateway k data) else m !! k.
Proof.
  unfold main.storeAll. revert m.
  induction ids as [|id ids IH]; intros m; [done |].
  rewrite fmap_cons. simpl. rewrite IH.
  destruct (decide (k ∈ ttnpb.GetGatewayId <$> ids)) as [H|H],
           (decide (k ∈ ttnpb.GetGatewayId id :: (ttnpb.GetGatewayId <$> ids)))
             as [H'|H']; try done.
  - destruct H'. by right.
  - apply elem_of_cons in H' as [->|?]; [apply lookup_insert_eq | done].
  - rewrite lookup_insert_ne; [done | intros <-; apply H'; left].
Qed.

Lemma storeAll_named data ids (m : gmap string Gateway.t) id :
  id ∈ ids →
  main.storeAll data ids m !! ttnpb.GetGatewayId id
  = Some (main.newGateway (ttnpb.GetGatewayId id) data).
Proof.
  intros Hin. rewrite storeAll_lookup. case_decide as H; [done |].
  destruct H. by apply list_elem_of_fmap_2.
Qed.

Lemma storeAll_keeps data ids (m : gmap string Gateway.t) (k : string) :
  is_Some (m !! k) → is_Some (main.storeAll data ids m !! k).
Proof. rewrite storeAll_lookup. case_decide; eauto. Qed.

(** ** The reporter step *)

Section ReporterFacts.
Context (Format : string → time.Time → string).

Lemma String_text_registry (gw : Gateway.t) (r r' : Registry) :
  (Gateway.String Format gw r).1 = (Gateway.String Format gw r').1.
Proof.
  unfold Gateway.String, Gateway.parts. by repeat case_decide.
Qed.

Lemma handle_other_name (st : main.State) (ev : events.Event) :
  events.Name ev ≠ "gs.gateway.connection.stats" →
  main.handle Format st ev = st.
Proof. intros H. unfold main.handle. by case_decide. Qed.

Lemma handle_other_data (st : main.State) (ev : events.Event) :
  events.Name ev = "gs.gateway.connection.stats" →
  (∀ data, events.Data ev ≠ events.DataStats data) →
  main.handle Format st ev =
    {| main.gateways := main.gateways st;
       main.registry := main.registry st;
       main.logged := main.logged st
         ++ ["event data seems to be of type "
               +:+ events.typeName (events.Data ev)] |}.
Proof.
  intros Hn Hd. unfold main.handle. case_decide; [done |].
  destruct (events.Data ev) as [|data|ty]; [done | by destruct (Hd data) | done].
Qed.

Lemma handle_stats_gateways (st : main.State) (ev : events.Event) data :
  events.Name ev = "gs.gateway.connection.stats" →
  events.Data ev = events.DataStats data →
  main.gateways (main.handle Format st ev)
  = main.storeAll data (events.Identifiers ev) (main.gateways st).
Proof.
  intros Hn Hd. unfold main.handle. case_decide; [done |]. rewrite Hd.
  by destruct (foldl _ _ _).
Qed.

(** Every step either leaves the map alone or is the update of a
    recognized event. *)
Lemma handle_gateways_cases (st : main.State) (ev : events.Event) :
  main.gateways (main.handle Format st ev) = main.gateways st
  ∨ ∃ data, events.Name ev = "gs.gateway.connection.stats"
            ∧ events.Data ev = events.DataStats data
            ∧ main.gateways (main.handle Format st ev)
              = main.storeAll data (events.Identifiers ev) (main.gateways st).
Proof.
  destruct (decide (events.Name ev = "gs.gateway.connection.stats")) as [Hn|Hn].
  - destruct (events.Data ev) as [|data|ty] eqn:Hd.
    + left. rewrite handle_other_data; [done | done | congruence].
    + right. exists data. eauto using handle_stats_gateways.
    + left. rewrite handle_other_data; [done | done | congruence].
  - left. by rewrite handle_other_name.
Qed.

Lemma reporter_app (evs evs' : list events.Event) (st : main.State) :
  main.reporter Format (evs ++ evs') st
  = main.reporter Format evs' (main.reporter Format evs st).
Proof. apply foldl_app. Qed.

Lemma foldl_logGateway (gws : gmap string Gateway.t) (k : list string)
    (r : Registry) (l : list string) :
  (∀ g, g ∈ k → is_Some (gws !! g)) →
  ∃ r' lines,
    foldl (main.logGateway Format gws) (r, l) k = (r', l ++ lines)
    ∧ Forall2 (λ line g, ∃ gw, gws !! g = Some gw ∧ line = main.summary Format gw) lines k.
Proof.
  revert r l. induction k as [|g k IH]; intros r l Hk; simpl.
  - exists r, []. by rewrite app_nil_r.
  - destruct (Hk g) as [gw Hgw]; [by left |]. rewrite Hgw.
    destruct (Gateway.String Format gw r) as [s r1] eqn:Hs.
    destruct (IH r1 (l ++ ["Gateway " +:+ s])) as (r' & lines & Hf & Hl).
    { intros g' Hg'. apply Hk. by right. }
    exists r', (("Gateway " +:+ s) :: lines). split.
    + by rewrite Hf, <- app_assoc.
    + constructor; [| done]. exists gw. split; [done |].
      unfold main.summary. by rewrite (String_text_registry gw emptyRegistry r), Hs.
Qed.

End ReporterFacts.

(** ** Rendering a snapshot *)

Section Rendering.
Context (Format : string → time.Time → string).

Lemma String_parts (g : Gateway.t) (r : Registry) :
  Gateway.String Format g r
  = (strings_Join (Gateway.parts Format g r).1 " ", (Gateway.parts Format g r).2).
Proof. unfold Gateway.String. by destruct (Gateway.parts Format g r). Qed.

Lemma parts_head (g : Gateway.t) (r : Registry) :
  head (Gateway.parts Format g r).1 = Some (Gateway.id g).
Proof. unfold Gateway.parts. by repeat case_decide. Qed.

Ltac render :=
  unfold Gateway.parts; repeat case_decide; try done; simpl;
  repeat split; intros;
  rewrite ?lookup_insert_ne by congruence; try done;
  repeat constructor.

(** C3 (zero suppression). The summary is the identifier followed by the
    clauses. Rendering a snapshot whose connect time is the epoch second zero,
    as it is when the event carried no connect time, sets no [connect] gauge
    and adds no [connected:] clause; a zero uplink, downlink or txAck count
    sets neither the time gauge nor the count gauge of that kind and adds no
    clause of that kind. *)
Theorem zero_suppression (g : Gateway.t) (r : Registry) :
  let clauses := tail (Gateway.parts Format g r).1 in
  let r' := (Gateway.String Format g r).2 in
  (Gateway.String Format g r).1
    = strings_Join (Gateway.id g :: clauses) " "
  ∧ (∀ gwid data,
       ttnpb.GetConnectedAt data = None →
       time.Time_Unix (Gateway.connectTime (main.newGateway gwid data)) = 0)
  ∧ (time.Time_Unix (Gateway.connectTime g) = 0 →
       (∀ gw, gwTime r' !! (gw, "connect") = gwTime r !! (gw, "connect"))
       ∧ (∀ gw, gwCount r' !! (gw, "connect") = gwCount r !! (gw, "connect"))
       ∧ Forall (λ p, isClause "connected: " p = false) clauses)
  ∧ (Gateway.uplinkCount g = 0 →
       (∀ gw, gwTime r' !! (gw, "uplink") = gwTime r !! (gw, "uplink"))
       ∧ (∀ gw, gwCount r' !! (gw, "uplink") = gwCount r !! (gw, "uplink"))
       ∧ Forall (λ p, isClause "uplinks: " p = false) clauses)
  ∧ (Gateway.downlinkCount g = 0 →
       (∀ gw, gwTime r' !! (gw, "downlink") = gwTime r !! (gw, "downlink"))
       ∧ (∀ gw, gwCount r' !! (gw, "downlink") = gwCount r !! (gw, "downlink"))
       ∧ Forall (λ p, isClause "downlinks: " p = false) clauses)
  ∧ (Gateway.txAckCount g = 0 →
       (∀ gw, gwTime r' !! (gw, "txack") = gwTime r !! (gw, "txack"))
       ∧ (∀ gw, gwCount r' !! (gw, "txack") = gwCount r !! (gw, "txack"))
       ∧ Forall (λ p, isClause "txAck: " p = false) clauses).
Proof.
  intros clauses r'. subst clauses r'. rewrite String_parts. simpl.
  split.
  { f_equal. pose proof (parts_head g r) as H.
    by destruct (Gateway.parts Format g r).1 as [|? ?]; simplify_eq/=. }
  split.
  { intros gwid data Hc. simpl. by rewrite Hc. }
  repeat split; intros; render.
Qed.
End Rendering.

(** ** The gateway map under the reporter *)

Section StoreClaims.
Context (Format : string → time.Time → string).

Lemma handle_recognized (st : main.State) (ev : events.Event) data (k : string) :
  recognized ev data →
  main.gateways (main.handle Format st ev) !! k =
    if decide (k ∈ named ev) then Some (main.newGateway k data)
    else main.gateways st !! k.
Proof.
  intros [Hn Hd]. rewrite (handle_stats_gateways _ _ _ data) by done.
  apply storeAll_lookup.
Qed.



Lemma handle_keysConsistent (st : main.State) (ev : events.Event) :
  keysConsistent (main.gateways st) →
  keysConsistent (main.gateways (main.handle Format st ev)).
Proof.
  intros Hst. destruct (handle_gateways_cases Format st ev)
    as [-> | (data & _ & _ & ->)]; [done |].
  intros k gw. rewrite storeAll_lookup. case_decide; [| by apply Hst].
  by intros [= <-].
Qed.

Lemma reporter_keysConsistent (evs : list events.Event) (st : main.State) :
  keysConsistent (main.gateways st) →
  keysConsistent (main.gateways (main.reporter Format evs st)).
Proof.
  revert st. induction evs as [|ev evs IH]; intros st Hst; [done |].
  apply IH. by apply handle_keysConsistent.
Qed.

(** C4 (latest wins). After the reporter has applied any sequence of events
    that ends with a recognized event naming [gwid], the snapshot stored under
    [gwid] carries [gwid] and, in every field, exactly the value the last
    event carries: the connect time, the three counts and the three last-seen
    times are those of that event. It is the record built from that event
    alone, so nothing of the earlier events or of the state before them is
    kept. *)
Theorem latest_wins (evs : list events.Event) (st : main.State)
    (ev : events.Event) data (gwid : string) :
  recognized ev data →
  gwid ∈ named ev →
  ∃ gw,
    main.gateways (main.reporter Format (evs ++ [ev]) st) !! gwid = Some gw
    ∧ gw = main.newGateway gwid data
    ∧ Gateway.id gw = gwid
    ∧ Gateway.connectTime gw = timestamppb.AsTime (ttnpb.GetConnectedAt data)
    ∧ Gateway.uplinkCount gw = ttnpb.GetUplinkCount data
    ∧ Gateway.uplinkTime gw
      = timestamppb.AsTime (ttnpb.GetLastUplinkReceivedAt data)
    ∧ Gateway.downlinkCount gw = ttnpb.GetDownlinkCount data
    ∧ Gateway.downlinkTime gw
      = timestamppb.AsTime (ttnpb.GetLastDownlinkReceivedAt data)
    ∧ Gateway.txAckCount gw = ttnpb.GetTxAcknowledgmentCount data
    ∧ Gateway.txAckTime gw
      = timestamppb.AsTime (ttnpb.GetLastTxAcknowledgmentReceivedAt data).
Proof.
  intros Hr Hin. exists (main.newGateway gwid data).
  split; [| by repeat split].
  rewrite reporter_app. simpl.
  rewrite (handle_recognized _ _ data) by done. by case_decide.
Qed.

(** C7 (fan-out). A recognized event stores, under every gateway identifier
    it names, a snapshot carrying that identifier and the event's values. *)
Theorem fan_out (st : main.State) (ev : events.Event) data :
  recognized ev data →
  Forall (λ gwid,
    ∃ gw, main.gateways (main.handle Format st ev) !! gwid = Some gw
      ∧ Gateway.id gw = gwid
      ∧ Gateway.connectTime gw = timestamppb.AsTime (ttnpb.GetConnectedAt data)
      ∧ Gateway.uplinkCount gw = ttnpb.GetUplinkCount data
      ∧ Gateway.uplinkTime gw
        = timestamppb.AsTime (ttnpb.GetLastUplinkReceivedAt data)
      ∧ Gateway.downlinkCount gw = ttnpb.GetDownlinkCount data
      ∧ Gateway.downlinkTime gw
        = timestamppb.AsTime (ttnpb.GetLastDownlinkReceivedAt data)
      ∧ Gateway.txAckCount gw = ttnpb.GetTxAcknowledgmentCount data
      ∧ Gateway.txAckTime gw
        = timestamppb.AsTime (ttnpb.GetLastTxAcknowledgmentReceivedAt data))
    (named ev).
Proof.
  intros Hr. apply Forall_forall. intros gwid Hin.
  exists (main.newGateway gwid data). split; [| by repeat split].
  rewrite (handle_recognized _ _ data) by done. by case_decide.
Qed.


(** C10 (key consistency). The empty map stores every record under its own
    identifier, every step of the reporter preserves this, and so it holds in
    every state the reporter reaches, for any events and any network. *)
Theorem keys_consistent :
  keysConsistent (main.gateways main.initial)
  ∧ (∀ st ev, keysConsistent (main.gateways st) →
              keysConsistent (main.gateways (main.handle Format st ev)))
  ∧ (∀ evs, keysConsistent (main.gateways (main.reporter Format evs main.initial)))
  ∧ (∀ net c, keysConsistent (main.gateways (main.pipeline Format net c))).
Proof.
  assert (keysConsistent (main.gateways main.initial)) as H0.
  { intros k gw. simpl. by rewrite lookup_empty. }
  repeat split; [done | apply handle_keysConsistent | |].
  - intros evs. by apply reporter_keysConsistent.
  - intros net c. by apply reporter_keysConsistent.
Qed.

(** C8 (sorted summaries). After a recognized event the reporter has logged,
    after the earlier lines, one summary line per key of the updated map, in
    the order of the sorted key slice. That slice is sorted for the order on
    strings without repetition, holds exactly the keys of the map, among them
    every identifier the event names, and is the same whatever order the keys
    were listed in before sorting. *)
Theorem summaries_sorted (st : main.State) (ev : events.Event) data :
  recognized ev data →
  let st' := main.handle Format st ev in
  let k := slices_Sort (maps_Keys (main.gateways st')) in
  (∃ lines,
     main.logged st' = main.logged st ++ lines
     ∧ Forall2 (λ line g, ∃ gw, main.gateways st' !! g = Some gw
                                ∧ line = main.summary Format gw) lines k)
  ∧ Sorted string_le k ∧ NoDup k
  ∧ (∀ g, g ∈ k ↔ is_Some (main.gateways st' !! g))
  ∧ (∀ gwid, gwid ∈ named ev → gwid ∈ k)
  ∧ (∀ k', k' ≡ₚ maps_Keys (main.gateways st') → slices_Sort k' = k).
Proof.
  intros [Hn Hd] st' k.
  assert (main.gateways st'
          = main.storeAll data (events.Identifiers ev) (main.gateways st)) as Hg.
  { by apply handle_stats_gateways. }
  repeat split.
  - subst k. rewrite Hg. subst st'. unfold main.handle.
    case_decide; [done |]. rewrite Hd.
    set (gws := main.storeAll data (events.Identifiers ev) (main.gateways st)).
    destruct (foldl_logGateway Format gws (slices_Sort (maps_Keys gws))
                (main.registry st) (main.logged st))
      as (r' & lines & Hf & Hl).
    { intros g. by rewrite elem_of_sorted_keys. }
    rewrite Hf. simpl. by exists lines.
  - apply slices_Sort_sorted.
  - apply NoDup_sorted_keys.
  - by apply elem_of_sorted_keys.
  - by apply elem_of_sorted_keys.
  - intros gwid Hin. apply elem_of_sorted_keys. rewrite Hg, storeAll_lookup.
    unfold named in Hin. by case_decide.
  - intros k' Hk'. by apply slices_Sort_order_irrelevant.
Qed.

End StoreClaims.

(** ** The receive loop *)

Lemma unavailable_not_canceled (err : error) :
  errors.IsUnavailable err = true → errors.IsCanceled err = false.
Proof. unfold errors.IsUnavailable, errors.IsCanceled. by destruct (code err). Qed.

Lemma requests_after (es : list Effect) (r : Client.Run) :
  requests (Client.after es r)
  = omap (λ e, match e with EStream ids => Some ids | _ => None end) es
    ++ requests r.
Proof. unfold requests. simpl. apply omap_app. Qed.

Lemma sent_after (es : list Effect) (r : Client.Run) :
  Client.sent (Client.after es r)
  = omap (λ e, match e with ESend ev => Some ev | _ => None end) es
    ++ Client.sent r.
Proof. unfold Client.sent. simpl. apply omap_app. Qed.

Lemma after_after (es es' : list Effect) (r : Client.Run) :
  Client.after es (Client.after es' r) = Client.after (es ++ es') r.
Proof. unfold Client.after. simpl. by rewrite app_assoc. Qed.

Lemma after_nil (r : Client.Run) : Client.after [] r = r.
Proof. by destruct r. Qed.

(** The loop reads the network only through the answer to the next [Stream]
    call. *)
Lemma recvLoop_net (net net' : Network) (n : nat) (c : Client.t) recvs :
  net n = net' n →
  Client.recvLoop net n c recvs = Client.recvLoop net' n c recvs.
Proof.
  intros Hn. induction recvs as [|[pEvent|err] recvs IH]; simpl; [done | |].
  - destruct (events.FromProto pEvent); [by rewrite IH | done].
  - rewrite IH. unfold Client.connectEventstream. by rewrite Hn.
Qed.

(** Results that pass only add their channel sends. *)
Lemma recvLoop_passes (net : Network) (n : nat) (c : Client.t) pre recvs :
  Forall passes pre →
  Client.recvLoop net n c (pre ++ recvs)
  = Client.after (forwarded pre) (Client.recvLoop net n c recvs).
Proof.
  induction 1 as [|[pEvent|err] pre Hp _ IH]; simpl.
  - by rewrite after_nil.
  - unfold forwarded. simpl in *. destruct (events.FromProto pEvent); [| done].
    simpl. by rewrite IH, after_after.
  - simpl in Hp. rewrite Hp. by rewrite IH.
Qed.

Lemma recvLoop_gateways (net : Network) (n : nat) (c : Client.t) recvs :
  Client.gateways (Client.client (Client.recvLoop net n c recvs))
  = Client.gateways c
  ∧ Forall (eq (Client.gateways c)) (requests (Client.recvLoop net n c recvs)).
Proof.
  induction recvs as [|[pEvent|err] recvs [IHg IHr]]; simpl; [by split | |].
  - destruct (events.FromProto pEvent); [| by split].
    split; [done |]. by rewrite requests_after.
  - destruct (errors.IsCanceled err); [by split |].
    destruct (errors.IsUnavailable err); [| by split].
    unfold Client.connectEventstream.
    destruct (net n); simpl; split; try done; by repeat constructor.
Qed.

(** C6 (same identifiers). Every [Stream] request of a call of [getEvents],
    the first one and the re-open after an Unavailable error, carries the
    identifier list the client was given, and the call leaves that list
    unchanged. When the first session reaches an Unavailable error there are
    exactly two requests, both with that list. *)
Theorem reconnect_same_identifiers (net : Network) (c : Client.t) :
  let run := Client.getEvents net c in
  Forall (eq (Client.gateways c)) (requests run)
  ∧ Client.gateways (Client.client run) = Client.gateways c
  ∧ (∀ pre err post,
       net 0%nat = StreamOk (pre ++ RecvErr err :: post) →
       Forall passes pre →
       errors.IsUnavailable err = true →
       requests run = [Client.gateways c; Client.gateways c]).
Proof.
  unfold Client.getEvents, Client.connectEventstream.
  destruct (net 0%nat) as [recvs|err0] eqn:H0; simpl.
  - destruct (recvLoop_gateways net 1 (Client.set_esc c 0) recvs) as [Hg Hr].
    unfold Client.pending. simpl. rewrite H0.
    split; [| split]; [| done |].
    + rewrite requests_after. simpl. by constructor.
    + intros pre err post [= ->] Hpre Hu.
      rewrite recvLoop_passes, after_after, requests_after by done.
      rewrite omap_app. simpl.
      rewrite (unavailable_not_canceled err), Hu by done.
      unfold Client.connectEventstream.
      assert (omap (λ e, match e with EStream ids => Some ids | _ => None end)
                   (forwarded pre) = []) as ->.
      { clear. unfold forwarded. induction pre as [|[p|e] pre IH]; simpl;
          [done | | done]. by destruct (events.FromProto p). }
      by destruct (net 1%nat).
  - split; [| split]; [by repeat constructor | done | done].
Qed.

Lemma getEvents_session (net : Network) (c : Client.t) recvs :
  net 0%nat = StreamOk recvs →
  Client.getEvents net c
  = Client.after [EStream (Client.gateways c)]
      (Client.recvLoop net 1 (Client.set_esc c 0) recvs).
Proof.
  intros H0. unfold Client.getEvents, Client.connectEventstream, Client.pending.
  rewrite H0. simpl. by rewrite H0.
Qed.

(** C1, as the code has it. When [Recv] fails with an Unavailable error the
    call logs, sleeps five seconds and re-opens the stream once with the
    client's identifiers. If the re-open fails the call returns
    [during reconnect: ...]; if it succeeds the new session is stored in
    [c.esc] and the call returns [recv: ...] all the same: the loop ends on
    either path. *)
Theorem unavailable_reopen (net : Network) (c : Client.t) pre err post :
  net 0%nat = StreamOk (pre ++ RecvErr err :: post) →
  Forall passes pre →
  errors.IsUnavailable err = true →
  let run := Client.getEvents net c in
  Client.effects run
  = [EStream (Client.gateways c)] ++ forwarded pre
    ++ [ELog "Lost connection, trying to reconnect"; ESleep 5;
        EStream (Client.gateways c)]
  ∧ match net 1%nat with
    | StreamErr err' =>
        Client.result run = Client.Returned ("during reconnect: " +:+ Error err')
        ∧ Client.esc (Client.client run) = Some 0%nat
    | StreamOk _ =>
        Client.result run = Client.Returned ("recv: " +:+ Error err)
        ∧ Client.esc (Client.client run) = Some 1%nat
    end.
Proof.
  intros H0 Hpre Hu. simpl.
  rewrite (getEvents_session _ _ _ H0), recvLoop_passes by done. simpl.
  rewrite (unavailable_not_canceled err), Hu by done.
  unfold Client.connectEventstream. by destruct (net 1%nat).
Qed.

Lemma recvLoop_drop_canceled (net : Network) (n : nat) (c : Client.t)
    err pre post :
  errors.IsCanceled err = true →
  Client.recvLoop net n c (pre ++ RecvErr err :: post)
  = Client.recvLoop net n c (pre ++ post).
Proof.
  intros Hc. induction pre as [|[pEvent|err'] pre IH]; simpl.
  - by rewrite Hc.
  - by rewrite IH.
  - by rewrite IH.
Qed.

Lemma getEvents_withSession (net : Network) (c : Client.t) recvs :
  Client.getEvents (withSession net recvs) c
  = Client.after [EStream (Client.gateways c)]
      (Client.recvLoop net 1 (Client.set_esc c 0) recvs).
Proof.
  rewrite (getEvents_session _ _ recvs) by done. f_equal.
  by apply recvLoop_net.
Qed.

(** C5 (cancellation absorbed). A Canceled error from [Recv] leaves the loop
    running with the same client, hence the same session, and with no effect
    at all: no [Stream] request, no sleep, nothing sent to the reporter. So a
    session with a Canceled error anywhere in it runs exactly as the session
    without it, in [getEvents] and in the state the reporter ends in; and a
    Canceled error alone does not end the loop. *)
Theorem canceled_absorbed (net : Network) (n : nat) (c : Client.t)
    err pre post :
  errors.IsCanceled err = true →
  Client.recvLoop net n c (RecvErr err :: post) = Client.recvLoop net n c post
  ∧ Client.recvLoop net n c [RecvErr err]
    = {| Client.effects := []; Client.client := c;
         Client.result := Client.Blocked |}
  ∧ Client.recvLoop net n c (pre ++ RecvErr err :: post)
    = Client.recvLoop net n c (pre ++ post)
  ∧ Client.getEvents (withSession net (pre ++ RecvErr err :: post)) c
    = Client.getEvents (withSession net (pre ++ post)) c
  ∧ (∀ Format,
       main.pipeline Format (withSession net (pre ++ RecvErr err :: post)) c
       = main.pipeline Format (withSession net (pre ++ post)) c).
Proof.
  intros Hc.
  assert (Client.getEvents (withSession net (pre ++ RecvErr err :: post)) c
          = Client.getEvents (withSession net (pre ++ post)) c) as Hg.
  { by rewrite !getEvents_withSession, recvLoop_drop_canceled. }
  repeat split.
  - simpl. by rewrite Hc.
  - simpl. by rewrite Hc.
  - by apply recvLoop_drop_canceled.
  - done.
  - intros Format. unfold main.pipeline. by rewrite Hg.
Qed.

(** ** Payloads the program does not understand *)

Section Payloads.
Context (Format : string → time.Time → string).

Lemma foldl_logGateway_registry (gws : gmap string Gateway.t) (k : list string)
    (r : Registry) (l l' : list string) :
  (foldl (main.logGateway Format gws) (r, l) k).1
  = (foldl (main.logGateway Format gws) (r, l') k).1.
Proof.
  revert r l l'. induction k as [|g k IH]; intros r l l'; simpl; [done |].
  destruct (gws !! g); [destruct (Gateway.String Format _ r) |]; apply IH.
Qed.

Lemma handle_agree (st1 st2 : main.State) (ev : events.Event) :
  main.gateways st1 = main.gateways st2 →
  main.registry st1 = main.registry st2 →
  main.gateways (main.handle Format st1 ev)
  = main.gateways (main.handle Format st2 ev)
  ∧ main.registry (main.handle Format st1 ev)
    = main.registry (main.handle Format st2 ev).
Proof.
  intros Hg Hr. unfold main.handle. case_decide; [done |].
  destruct (events.Data ev) as [|data|ty]; simpl; [done | | done].
  rewrite Hg, Hr.
  pose proof (foldl_logGateway_registry
    (main.storeAll data (events.Identifiers ev) (main.gateways st2))
    (slices_Sort (maps_Keys
       (main.storeAll data (events.Identifiers ev) (main.gateways st2))))
    (main.registry st2) (main.logged st1) (main.logged st2)) as Hf.
  by do 2 destruct (foldl _ _ _).
Qed.

Lemma reporter_agree (evs : list events.Event) (st1 st2 : main.State) :
  main.gateways st1 = main.gateways st2 →
  main.registry st1 = main.registry st2 →
  main.gateways (main.reporter Format evs st1)
  = main.gateways (main.reporter Format evs st2)
  ∧ main.registry (main.reporter Format evs st1)
    = main.registry (main.reporter Format evs st2).
Proof.
  revert st1 st2. induction evs as [|ev evs IH]; intros st1 st2 Hg Hr; [done |].
  simpl. by apply IH; apply handle_agree.
Qed.

Lemma handle_unrecognized (st : main.State) (ev : events.Event) :
  (∀ data, ¬ recognized ev data) →
  main.gateways (main.handle Format st ev) = main.gateways st
  ∧ main.registry (main.handle Format st ev) = main.registry st.
Proof.
  intros Hu. destruct (decide (events.Name ev = "gs.gateway.connection.stats")).
  - rewrite handle_other_data; [done | done |].
    intros data Hd. by apply (Hu data).
  - by rewrite handle_other_name.
Qed.

(** C2, amended. In the reporter an event of another name is skipped without
    a log line, and an event of the recognized name whose payload is not
    connection statistics is skipped with one log line; neither changes the
    map or the gauges, and the events around it are applied as if it were not
    there. In [getEvents] a message that [FromProto] cannot decode is not
    skipped: the call returns [FromProto: ...] at once. *)
Theorem undecodable_payloads :
  (∀ st ev, events.Name ev ≠ "gs.gateway.connection.stats" →
            main.handle Format st ev = st)
  ∧ (∀ st ev,
       events.Name ev = "gs.gateway.connection.stats" →
       (∀ data, events.Data ev ≠ events.DataStats data) →
       main.gateways (main.handle Format st ev) = main.gateways st
       ∧ main.registry (main.handle Format st ev) = main.registry st
       ∧ main.logged (main.handle Format st ev)
         = main.logged st ++ ["event data seems to be of type "
                                +:+ events.typeName (events.Data ev)])
  ∧ (∀ st pre ev post,
       (∀ data, ¬ recognized ev data) →
       main.gateways (main.reporter Format (pre ++ ev :: post) st)
       = main.gateways (main.reporter Format (pre ++ post) st)
       ∧ main.registry (main.reporter Format (pre ++ ev :: post) st)
         = main.registry (main.reporter Format (pre ++ post) st))
  ∧ (∀ (net : Network) n c pEvent err recvs,
       events.FromProto pEvent = inr err →
       Client.recvLoop net n c (RecvOk pEvent :: recvs)
       = {| Client.effects := []; Client.client := c;
            Client.result := Client.Returned ("FromProto: " +:+ Error err) |}).
Proof.
  split; [| split; [| split]].
  - apply handle_other_name.
  - intros st ev Hn Hd. by rewrite handle_other_data.
  - intros st pre ev post Hu. rewrite !reporter_app. simpl.
    by apply reporter_agree; apply handle_unrecognized.
  - intros net n c pEvent err recvs Hp. simpl. by rewrite Hp.
Qed.

End Payloads.

(** ** The claims at concrete inputs *)

Lemma latest_wins_witness :
  recognized sample.E2 (Some (sample.uplinks 5 sample.t2))
  ∧ "gw1" ∈ named sample.E2
  ∧ ∃ gw,
      main.gateways
        (main.reporter formatUTC ([sample.E1] ++ [sample.E2]) main.initial)
        !! "gw1" = Some gw
      ∧ Gateway.id gw = "gw1"
      ∧ Gateway.uplinkCount gw = 5
      ∧ Gateway.uplinkTime gw = time.Unix sample.t2 0
      ∧ Gateway.downlinkCount gw = 0.
Proof.
  assert (recognized sample.E2 (Some (sample.uplinks 5 sample.t2))) as Hr
    by (split; reflexivity).
  assert ("gw1" ∈ named sample.E2) as Hin by (vm_compute; left).
  split; [exact Hr | split; [exact Hin |]].
  destruct (latest_wins formatUTC [sample.E1] main.initial sample.E2 _ "gw1" Hr Hin)
    as (gw & Hgw & _ & Hid & _ & Hup & Hut & Hdown & _).
  exists gw.
  split; [exact Hgw | split; [exact Hid | split; [exact Hup |
    split; [exact Hut | exact Hdown]]]].
Defined.

Lemma fan_out_witness :
  recognized sample.EAB (Some (sample.uplinks 7 sample.t1))
  ∧ Forall (λ gwid,
      ∃ gw, main.gateways (main.handle formatUTC main.initial sample.EAB) !! gwid
            = Some gw
        ∧ Gateway.uplinkCount gw = 7)
      ["B"; "A"].
Proof.
  assert (recognized sample.EAB (Some (sample.uplinks 7 sample.t1))) as Hr
    by (split; reflexivity).
  split; [exact Hr |].
  eapply Forall_impl; [exact (fan_out formatUTC main.initial sample.EAB _ Hr) |].
  intros gwid (gw & Hgw & _ & _ & Hup & _). exists gw. split; [exact Hgw | exact Hup].
Defined.

Lemma summaries_sorted_witness :
  recognized sample.EAB (Some (sample.uplinks 7 sample.t1))
  ∧ slices_Sort (maps_Keys (main.gateways
       (main.handle formatUTC main.initial sample.EAB))) = ["A"; "B"]
  ∧ Sorted string_le ["A"; "B"].
Proof.
  assert (recognized sample.EAB (Some (sample.uplinks 7 sample.t1))) as Hr
    by (split; reflexivity).
  split; [exact Hr |]. split; [vm_compute; reflexivity |].
  pose proof (summaries_sorted formatUTC main.initial sample.EAB _ Hr) as H.
  simpl in H. destruct H as (_ & Hs & _).
  assert (slices_Sort (maps_Keys (main.gateways
            (main.handle formatUTC main.initial sample.EAB))) = ["A"; "B"]) as <-
    by (vm_compute; reflexivity).
  exact Hs.
Defined.

Lemma canceled_absorbed_witness :
  errors.IsCanceled sample.canceled = true
  ∧ Client.getEvents
      (withSession sample.quiet
         ([RecvOk (sample.raw sample.E1)]
            ++ RecvErr sample.canceled :: [RecvOk (sample.raw sample.E2)]))
      sample.client
    = Client.getEvents
        (withSession sample.quiet
           ([RecvOk (sample.raw sample.E1)] ++ [RecvOk (sample.raw sample.E2)]))
        sample.client.
Proof.
  split; [reflexivity |].
  exact (proj1 (proj2 (proj2 (proj2
    (canceled_absorbed sample.quiet 1 sample.client sample.canceled
       [RecvOk (sample.raw sample.E1)] [RecvOk (sample.raw sample.E2)]
       eq_refl))))).
Defined.

Lemma unavailable_reopen_witness :
  let net := withSession sample.quiet
               ([RecvOk (sample.raw sample.E1)] ++ RecvErr sample.unavailable :: []) in
  net 0%nat = StreamOk ([RecvOk (sample.raw sample.E1)]
                          ++ RecvErr sample.unavailable :: [])
  ∧ Forall passes [RecvOk (sample.raw sample.E1)]
  ∧ errors.IsUnavailable sample.unavailable = true
  ∧ Client.result (Client.getEvents net sample.client)
    = Client.Returned "recv: transport is closing"
  ∧ Client.esc (Client.client (Client.getEvents net sample.client)) = Some 1%nat.
Proof.
  intros net.
  assert (Forall passes [RecvOk (sample.raw sample.E1)]) as Hp
    by (repeat constructor).
  split; [reflexivity | split; [exact Hp | split; [reflexivity |]]].
  exact (proj2 (unavailable_reopen net sample.client
                  [RecvOk (sample.raw sample.E1)] sample.unavailable []
                  eq_refl Hp eq_refl)).
Defined.

(** C2, as stated, fails: a message that [FromProto] rejects ends
    [getEvents], and the message after it is never forwarded. *)
Lemma decoding_aborts_on_garbled_payload :
  Client.recvLoop sample.quiet 1 sample.client
    [RecvOk sample.garbled; RecvOk (sample.raw sample.E2)]
  = {| Client.effects := []; Client.client := sample.client;
       Client.result := Client.Returned "FromProto: proto: cannot parse" |}
  ∧ ¬ decoding_never_aborts.
Proof.
  split; [reflexivity |]. intros H.
  specialize (H sample.quiet 1%nat sample.client sample.garbled
                [RecvOk (sample.raw sample.E2)]).
  discriminate H.
Qed.

(** The scenario of the specification: [E1], a Canceled error, [E2]. Two
    events reach the reporter and the map holds the values of [E2]. *)
Example scenario_canceled_between_events :
  let net := withSession sample.quiet
    [RecvOk (sample.raw sample.E1); RecvErr sample.canceled;
     RecvOk (sample.raw sample.E2)] in
  Client.sent (Client.getEvents net sample.client) = [sample.E1; sample.E2]
  ∧ Client.result (Client.getEvents net sample.client) = Client.Blocked
  ∧ requests (Client.getEvents net sample.client) = [[ttnpb.GatewayIds "gw1"]]
  ∧ (Gateway.uplinkCount <$>
       main.gateways (main.pipeline formatUTC net sample.client) !! "gw1") = Some 5
  ∧ (Gateway.uplinkTime <$>
       main.gateways (main.pipeline formatUTC net sample.client) !! "gw1")
    = Some (time.Unix sample.t2 0)
  ∧ main.logged (main.pipeline formatUTC net sample.client)
    = ["Gateway gw1 uplinks: 3 (last 2023-11-14 22:13:20)";
       "Gateway gw1 uplinks: 5 (last 2023-11-14 22:14:20)"].
Proof. vm_compute. repeat split. Qed.

(** The scenario of the specification: a snapshot with nothing set renders
    as its identifier alone and sets no gauge. *)
Example scenario_nothing_set :
  Gateway.String formatUTC sample.gwA emptyRegistry = ("gwA", emptyRegistry).
Proof. reflexivity. Qed.

(** A snapshot with uplinks only: one clause, the two uplink gauges, and
    nothing for the kinds left at zero. *)
Example scenario_uplinks_only :
  let '(s, r) := Gateway.String formatUTC
                   (main.newGateway "gwA" (Some (sample.uplinks 3 sample.t1)))
                   emptyRegistry in
  s = "gwA uplinks: 3 (last 2023-11-14 22:13:20)"
  ∧ map_to_list (gwTime r) = [("gwA", "uplink", float64_of 1700000000)]
  ∧ map_to_list (gwCount r) = [("gwA", "uplink", float64_of 3)].
Proof. vm_compute. repeat split. Qed.

(** A successful re-open does not keep [getEvents] running: the events that
    the new session would deliver are never received. *)
Example scenario_reopen_then_return :
  let net : Network := λ n,
    match n with
    | O => StreamOk [RecvErr sample.unavailable]
    | S _ => StreamOk [RecvOk (sample.raw sample.E2)]
    end in
  Client.getEvents net sample.client
  = {| Client.effects :=
         [EStream [ttnpb.GatewayIds "gw1"];
          ELog "Lost connection, trying to reconnect"; ESleep 5;
          EStream [ttnpb.GatewayIds "gw1"]];
       Client.client := Client.set_esc sample.client 1;
       Client.result := Client.Returned "recv: transport is closing" |}.
Proof. reflexivity. Qed.

(** * Further properties of the code *)

(** ** Gateway.String: what is published *)

Section Published.
Context (Format : string → time.Time → string).

Ltac gauges :=
  unfold Gateway.String, Gateway.parts; repeat case_decide; simpl;
  rewrite ?lookup_insert; repeat case_decide; simplify_eq; try done.

Lemma String_frame (g : Gateway.t) (r : Registry) (x kind : string) :
  x ≠ Gateway.id g →
  gwTime (Gateway.String Format g r).2 !! (x, kind) = gwTime r !! (x, kind)
  ∧ gwCount (Gateway.String Format g r).2 !! (x, kind) = gwCount r !! (x, kind).
Proof. intros Hx. split; gauges. Qed.

Lemma String_keeps (g : Gateway.t) (r : Registry) (key : string * string) :
  (is_Some (gwTime r !! key) →
   is_Some (gwTime (Gateway.String Format g r).2 !! key))
  ∧ (is_Some (gwCount r !! key) →
     is_Some (gwCount (Gateway.String Format g r).2 !! key)).
Proof. split; intros Hk; gauges; eauto. Qed.

Lemma String_connect_set (g : Gateway.t) (r : Registry) :
  time.Time_Unix (Gateway.connectTime g) ≠ 0 →
  gwTime (Gateway.String Format g r).2 !! (Gateway.id g, "connect")
  = Some (float64_of (time.Time_Unix (Gateway.connectTime g))).
Proof. intros H. gauges. Qed.

Lemma String_uplink_set (g : Gateway.t) (r : Registry) :
  Gateway.uplinkCount g ≠ 0 →
  gwTime (Gateway.String Format g r).2 !! (Gateway.id g, "uplink")
  = Some (float64_of (time.Time_Unix (Gateway.uplinkTime g)))
  ∧ gwCount (Gateway.String Format g r).2 !! (Gateway.id g, "uplink")
    = Some (float64_of (Gateway.uplinkCount g)).
Proof. intros H. split; gauges. Qed.

Lemma String_downlink_set (g : Gateway.t) (r : Registry) :
  Gateway.downlinkCount g ≠ 0 →
  gwTime (Gateway.String Format g r).2 !! (Gateway.id g, "downlink")
  = Some (float64_of (time.Time_Unix (Gateway.downlinkTime g)))
  ∧ gwCount (Gateway.String Format g r).2 !! (Gateway.id g, "downlink")
    = Some (float64_of (Gateway.downlinkCount g)).
Proof. intros H. split; gauges. Qed.

Lemma String_txack_set (g : Gateway.t) (r : Registry) :
  Gateway.txAckCount g ≠ 0 →
  gwTime (Gateway.String Format g r).2 !! (Gateway.id g, "txack")
  = Some (float64_of (time.Time_Unix (Gateway.txAckTime g)))
  ∧ gwCount (Gateway.String Format g r).2 !! (Gateway.id g, "txack")
    = Some (float64_of (Gateway.txAckCount g)).
Proof. intros H. split; gauges. Qed.

End Published.

Section PublishedClaims.
Context (Format : string → time.Time → string).

Ltac clause :=
  unfold Gateway.parts; repeat case_decide; try done; simpl;
  rewrite ?elem_of_cons; auto 10.

(** For every field that is set, [String] publishes the stored value under
    the gateway's own label and puts the clause of that kind, with the count
    and the formatted time, among the parts of the summary. *)
Theorem rendered_when_set (g : Gateway.t) (r : Registry) :
  let ps := (Gateway.parts Format g r).1 in
  let r' := (Gateway.String Format g r).2 in
  (time.Time_Unix (Gateway.connectTime g) ≠ 0 →
     gwTime r' !! (Gateway.id g, "connect")
     = Some (float64_of (time.Time_Unix (Gateway.connectTime g)))
     ∧ "connected: " +:+ Format timeFmt (Gateway.connectTime g) ∈ ps)
  ∧ (Gateway.uplinkCount g ≠ 0 →
       gwTime r' !! (Gateway.id g, "uplink")
       = Some (float64_of (time.Time_Unix (Gateway.uplinkTime g)))
       ∧ gwCount r' !! (Gateway.id g, "uplink")
         = Some (float64_of (Gateway.uplinkCount g))
       ∧ "uplinks: " +:+ pretty (Gateway.uplinkCount g) +:+ " (last "
           +:+ Format timeFmt (Gateway.uplinkTime g) +:+ ")" ∈ ps)
  ∧ (Gateway.downlinkCount g ≠ 0 →
       gwTime r' !! (Gateway.id g, "downlink")
       = Some (float64_of (time.Time_Unix (Gateway.downlinkTime g)))
       ∧ gwCount r' !! (Gateway.id g, "downlink")
         = Some (float64_of (Gateway.downlinkCount g))
       ∧ "downlinks: " +:+ pretty (Gateway.downlinkCount g) +:+ " (last "
           +:+ Format timeFmt (Gateway.downlinkTime g) +:+ ")" ∈ ps)
  ∧ (Gateway.txAckCount g ≠ 0 →
       gwTime r' !! (Gateway.id g, "txack")
       = Some (float64_of (time.Time_Unix (Gateway.txAckTime g)))
       ∧ gwCount r' !! (Gateway.id g, "txack")
         = Some (float64_of (Gateway.txAckCount g))
       ∧ "txAck: " +:+ pretty (Gateway.txAckCount g) +:+ " (last "
           +:+ Format timeFmt (Gateway.txAckTime g) +:+ ")" ∈ ps).
Proof.
  intros ps r'. subst ps r'. split; [| split; [| split]]; intros H.
  - split; [by apply String_connect_set | clause].
  - destruct (String_uplink_set Format g r H). repeat split; [done | done | clause].
  - destruct (String_downlink_set Format g r H). repeat split; [done | done | clause].
  - destruct (String_txack_set Format g r H). repeat split; [done | done | clause].
Qed.

(** [String] writes only samples labelled with the gateway's own identifier:
    the samples of every other gateway are left as they were. It never removes
    a sample, so a gauge that was published once stays in the registry. *)
Theorem render_own_labels_only (g : Gateway.t) (r : Registry) :
  let r' := (Gateway.String Format g r).2 in
  (∀ x kind, x ≠ Gateway.id g →
     gwTime r' !! (x, kind) = gwTime r !! (x, kind)
     ∧ gwCount r' !! (x, kind) = gwCount r !! (x, kind))
  ∧ dom (gwTime r) ⊆ dom (gwTime r')
  ∧ dom (gwCount r) ⊆ dom (gwCount r').
Proof.
  simpl. split; [| split].
  - intros x kind Hx. by apply String_frame.
  - intros key. rewrite !elem_of_dom. apply String_keeps.
  - intros key. rewrite !elem_of_dom. apply String_keeps.
Qed.

(** Rendering the same snapshot a second time gives the same text and leaves
    the registry as the first rendering left it. *)
Theorem render_idempotent (g : Gateway.t) (r : Registry) :
  Gateway.String Format g (Gateway.String Format g r).2
  = Gateway.String Format g r.
Proof.
  rewrite (surjective_pairing (Gateway.String Format g r)) at 2.
  rewrite (surjective_pairing (Gateway.String Format g _)) at 1.
  f_equal; [apply String_text_registry |].
  unfold Gateway.String, Gateway.parts.
  repeat case_decide; try done; simpl; unfold gwCount_Set, gwTime_Set; simpl;
    f_equal; apply map_eq; intros [x kind];
    rewrite ?lookup_insert; repeat case_decide; simplify_eq; done.
Qed.

End PublishedClaims.

(** ** getEvents: how a call ends and what it forwards *)

Lemma passes_dec (r : RecvResult) : {passes r} + {¬ passes r}.
Proof.
  destruct r as [pEvent|err]; simpl.
  - destruct (events.FromProto pEvent); [left | right]; tauto.
  - destruct (errors.IsCanceled err); [left | right]; congruence.
Qed.

(** A session splits at the first result that does not pass. *)
Lemma split_at_first_stop (recvs : list RecvResult) :
  ∃ pre post, recvs = pre ++ post ∧ Forall passes pre
    ∧ (post = [] ∨ ∃ r post', post = r :: post' ∧ ¬ passes r).
Proof.
  induction recvs as [|r recvs (pre & post & -> & Hpre & Hpost)].
  - exists [], []. auto.
  - destruct (passes_dec r) as [Hr|Hr].
    + exists (r :: pre), post. auto.
    + exists [], (r :: pre ++ post). split; [done |]. split; [done |]. eauto.
Qed.

Lemma sent_forwarded (pre : list RecvResult) (run : Client.Run) :
  Client.sent (Client.after (forwarded pre) run) = delivered pre ++ Client.sent run.
Proof.
  rewrite sent_after. f_equal. unfold forwarded, delivered.
  induction pre as [|[pEvent|err] pre IH]; simpl; [done | | exact IH].
  destruct (events.FromProto pEvent); simpl; [f_equal |]; exact IH.
Qed.

Lemma requests_forwarded (pre : list RecvResult) (run : Client.Run) :
  requests (Client.after (forwarded pre) run) = requests run.
Proof.
  rewrite requests_after. unfold forwarded.
  induction pre as [|[pEvent|err] pre IH]; simpl; [done | | exact IH].
  destruct (events.FromProto pEvent); exact IH.
Qed.

Lemma sleeps_after (es : list Effect) (r : Client.Run) :
  sleeps (Client.after es r)
  = omap (λ e, match e with ESleep seconds => Some seconds | _ => None end) es
    ++ sleeps r.
Proof. unfold sleeps. simpl. apply omap_app. Qed.

Lemma sleeps_forwarded (pre : list RecvResult) (run : Client.Run) :
  sleeps (Client.after (forwarded pre) run) = sleeps run.
Proof.
  rewrite sleeps_after. unfold forwarded.
  induction pre as [|[pEvent|err] pre IH]; simpl; [done | | exact IH].
  destruct (events.FromProto pEvent); exact IH.
Qed.

(** A result that does not pass ends the loop with an error, and nothing is
    sent from it or from what follows it. *)
Lemma recvLoop_stop (net : Network) (n : nat) (c : Client.t) r post :
  ¬ passes r →
  (∃ msg, Client.result (Client.recvLoop net n c (r :: post)) = Client.Returned msg)
  ∧ Client.sent (Client.recvLoop net n c (r :: post)) = [].
Proof.
  intros Hr. destruct r as [pEvent|err]; simpl in *.
  - destruct (events.FromProto pEvent); [tauto | eauto].
  - destruct (errors.IsCanceled err); [done |].
    destruct (errors.IsUnavailable err); [| eauto].
    unfold Client.connectEventstream. destruct (net n); eauto.
Qed.

Lemma recvLoop_all_pass (net : Network) (n : nat) (c : Client.t) recvs :
  Forall passes recvs →
  Client.recvLoop net n c recvs
  = Client.after (forwarded recvs)
      {| Client.effects := []; Client.client := c; Client.result := Client.Blocked |}.
Proof.
  intros Hp. rewrite <- (app_nil_r recvs) at 1. by rewrite recvLoop_passes.
Qed.

Lemma getEvents_open_failed (net : Network) (c : Client.t) err :
  net 0%nat = StreamErr err →
  Client.getEvents net c
  = {| Client.effects := [EStream (Client.gateways c)];
       Client.client := c;
       Client.result := Client.Returned ("connectEventstream: " +:+ Error err) |}.
Proof.
  intros H0. unfold Client.getEvents, Client.connectEventstream. by rewrite H0.
Qed.

(** A [Recv] error that is neither Canceled nor Unavailable ends [getEvents]
    with [recv: ...] at once: the messages before it have been forwarded, and
    there is no sleep and no second [Stream] request. *)
Theorem other_error_fatal (net : Network) (c : Client.t) pre err post :
  net 0%nat = StreamOk (pre ++ RecvErr err :: post) →
  Forall passes pre →
  errors.IsCanceled err = false →
  errors.IsUnavailable err = false →
  Client.getEvents net c
  = {| Client.effects := [EStream (Client.gateways c)] ++ forwarded pre;
       Client.client := Client.set_esc c 0;
       Client.result := Client.Returned ("recv: " +:+ Error err) |}.
Proof.
  intros H0 Hpre Hc Hu.
  rewrite (getEvents_session _ _ _ H0), recvLoop_passes by done. simpl.
  rewrite Hc, Hu. unfold Client.after. simpl. by rewrite app_nil_r.
Qed.

(** [getEvents] forwards the decodable messages of the session in the order
    received, up to the first result that is neither a Canceled error nor a
    decodable message. If there is no such result the call waits in [Recv];
    otherwise it returns an error, and nothing after that result is
    forwarded. *)
Theorem forwards_in_order (net : Network) (c : Client.t) recvs :
  net 0%nat = StreamOk recvs →
  ∃ pre post,
    recvs = pre ++ post
    ∧ Forall passes pre
    ∧ Client.sent (Client.getEvents net c) = delivered pre
    ∧ (post = [] ∧ Client.result (Client.getEvents net c) = Client.Blocked
       ∨ ∃ r post' msg,
           post = r :: post' ∧ ¬ passes r
           ∧ Client.result (Client.getEvents net c) = Client.Returned msg).
Proof.
  intros H0. rewrite (getEvents_session _ _ _ H0).
  destruct (split_at_first_stop recvs)
    as (pre & post & -> & Hpre & [-> | (r & post' & -> & Hr)]).
  - exists pre, []. rewrite app_nil_r, recvLoop_all_pass by done.
    split; [done |]. split; [done |]. split; [| by left].
    rewrite sent_after. simpl. rewrite sent_forwarded. apply app_nil_r.
  - exists pre, (r :: post'). rewrite recvLoop_passes by done.
    destruct (recvLoop_stop net 1 (Client.set_esc c 0) r post' Hr)
      as [[msg Hm] Hs].
    split; [done |]. split; [done |]. split.
    + rewrite sent_after, sent_forwarded, Hs. simpl. apply app_nil_r.
    + right. exists r, post', msg. by repeat split.
Qed.

(** [getEvents] waits in [Recv] exactly when the first session opens and
    every one of its results is a Canceled error or a decodable message: the
    loop has no exit but an error. *)
Theorem blocked_iff_all_pass (net : Network) (c : Client.t) :
  Client.result (Client.getEvents net c) = Client.Blocked
  ↔ ∃ recvs, net 0%nat = StreamOk recvs ∧ Forall passes recvs.
Proof.
  split.
  - destruct (net 0%nat) as [recvs|err] eqn:H0.
    + rewrite (getEvents_session _ _ _ H0). intros Hb. exists recvs.
      change (Client.result (Client.recvLoop net 1 (Client.set_esc c 0) recvs)
              = Client.Blocked) in Hb.
      split; [done |].
      destruct (split_at_first_stop recvs)
        as (pre & post & -> & Hpre & [-> | (r & post' & -> & Hr)]).
      * by rewrite app_nil_r.
      * rewrite recvLoop_passes in Hb by done.
        change (Client.result (Client.recvLoop net 1 (Client.set_esc c 0)
                                 (r :: post')) = Client.Blocked) in Hb.
        destruct (recvLoop_stop net 1 (Client.set_esc c 0) r post' Hr)
          as [[msg Hm] _]. congruence.
    + by rewrite (getEvents_open_failed net c err H0).
  - intros (recvs & H0 & Hp).
    by rewrite (getEvents_session _ _ _ H0), recvLoop_all_pass.
Qed.

Lemma recvLoop_stop_requests (net : Network) (n : nat) (c : Client.t) r post :
  ¬ passes r →
  requests (Client.recvLoop net n c (r :: post)) = []
  ∧ sleeps (Client.recvLoop net n c (r :: post)) = []
  ∨ requests (Client.recvLoop net n c (r :: post)) = [Client.gateways c]
    ∧ sleeps (Client.recvLoop net n c (r :: post)) = [5].
Proof.
  intros Hr. destruct r as [pEvent|err]; simpl in *.
  - destruct (events.FromProto pEvent); [tauto | by left].
  - destruct (errors.IsCanceled err); [done |].
    destruct (errors.IsUnavailable err); [| by left].
    unfold Client.connectEventstream. destruct (net n); by right.
Qed.

(** Every call of [getEvents] makes one [Stream] request, or two with one
    sleep of five seconds before the second; all of them carry the client's
    identifiers. There is never a third request nor a second sleep. *)
Theorem at_most_one_reopen (net : Network) (c : Client.t) :
  let run := Client.getEvents net c in
  requests run = [Client.gateways c] ∧ sleeps run = []
  ∨ requests run = [Client.gateways c; Client.gateways c] ∧ sleeps run = [5].
Proof.
  simpl. destruct (net 0%nat) as [recvs|err] eqn:H0.
  - rewrite (getEvents_session _ _ _ H0), requests_after, sleeps_after. simpl.
    destruct (split_at_first_stop recvs)
      as (pre & post & -> & Hpre & [-> | (r & post' & -> & Hr)]).
    + left. rewrite app_nil_r, recvLoop_all_pass by done.
      by rewrite requests_forwarded, sleeps_forwarded.
    + rewrite recvLoop_passes, requests_forwarded, sleeps_forwarded by done.
      destruct (recvLoop_stop_requests net 1 (Client.set_esc c 0) r post' Hr)
        as [[-> ->] | [-> ->]]; [by left | by right].
  - left. by rewrite (getEvents_open_failed net c err H0).
Qed.

Lemma recvLoop_stop_reason (net : Network) (n : nat) (c : Client.t) r post msg :
  ¬ passes r →
  Client.result (Client.recvLoop net n c (r :: post)) = Client.Returned msg →
  (∃ err, r = RecvErr err ∧ errors.IsCanceled err = false
          ∧ (errors.IsUnavailable err = true
             ∧ (∃ err', net n = StreamErr err'
                        ∧ msg = "during reconnect: " +:+ Error err')
             ∨ (errors.IsUnavailable err = true → ∃ recvs, net n = StreamOk recvs)
               ∧ msg = "recv: " +:+ Error err))
  ∨ (∃ pEvent err, r = RecvOk pEvent ∧ events.FromProto pEvent = inr err
                   ∧ msg = "FromProto: " +:+ Error err).
Proof.
  intros Hr. destruct r as [pEvent|err]; simpl in *.
  - destruct (events.FromProto pEvent) as [ev|err] eqn:Hp; [tauto |].
    intros [= <-]. right. eauto.
  - destruct (errors.IsCanceled err) eqn:Hc; [done |].
    destruct (errors.IsUnavailable err) eqn:Hu.
    + unfold Client.connectEventstream.
      destruct (net n) as [recvs|err'] eqn:Hn; intros [= <-]; left;
        exists err; (split; [done |]); (split; [done |]); [right | left]; eauto.
    + intros [= <-]. left. exists err. split; [done |]. split; [done |].
      right. split; [| done]. rewrite Hu. intros [=].
Qed.

(** Every error [getEvents] returns has one of four forms, each with its
    cause: [connectEventstream:] when the first open fails; [during
    reconnect:] when the re-open after an Unavailable error fails; [recv:]
    for any other [Recv] error that is not Canceled, and also for an
    Unavailable error whose re-open succeeded; [FromProto:] for a message
    that cannot be decoded. In the last three cases everything before the
    failing result was a Canceled error or a decodable message. *)
Theorem return_reasons (net : Network) (c : Client.t) (msg : string) :
  Client.result (Client.getEvents net c) = Client.Returned msg →
  (∃ err, net 0%nat = StreamErr err
          ∧ msg = "connectEventstream: " +:+ Error err)
  ∨ (∃ pre err post,
       net 0%nat = StreamOk (pre ++ RecvErr err :: post) ∧ Forall passes pre
       ∧ errors.IsCanceled err = false
       ∧ (errors.IsUnavailable err = true
          ∧ (∃ err', net 1%nat = StreamErr err'
                     ∧ msg = "during reconnect: " +:+ Error err')
          ∨ (errors.IsUnavailable err = true → ∃ recvs, net 1%nat = StreamOk recvs)
            ∧ msg = "recv: " +:+ Error err))
  ∨ (∃ pre pEvent err post,
       net 0%nat = StreamOk (pre ++ RecvOk pEvent :: post) ∧ Forall passes pre
       ∧ events.FromProto pEvent = inr err
       ∧ msg = "FromProto: " +:+ Error err).
Proof.
  destruct (net 0%nat) as [recvs|err0] eqn:H0.
  - rewrite (getEvents_session _ _ _ H0).
    change (Client.result (Client.after ?es ?r)) with (Client.result r).
    destruct (split_at_first_stop recvs)
      as (pre & post & -> & Hpre & [-> | (r & post' & -> & Hr)]).
    + rewrite app_nil_r, recvLoop_all_pass by done. done.
    + rewrite recvLoop_passes by done.
      change (Client.result (Client.after ?es ?r)) with (Client.result r).
      intros Hm. right.
      destruct (recvLoop_stop_reason net 1 _ r post' msg Hr Hm)
        as [(err & -> & Hc & Hcase) | (pEvent & err & -> & Hp & ->)].
      * left. exists pre, err, post'. done.
      * right. exists pre, pEvent, err, post'. done.
  - rewrite (getEvents_open_failed net c err0 H0). intros [= <-]. left. eauto.
Qed.

(** ** Start-up *)

Lemma foldl_snoc_fmap {A B} (f : A → B) (acc : list B) (l : list A) :
  foldl (λ acc x, acc ++ [f x]) acc l = acc ++ (f <$> l).
Proof.
  revert acc. induction l as [|x l IH]; intros acc; simpl.
  - by rewrite app_nil_r.
  - by rewrite IH, <- app_assoc.
Qed.

Lemma foldl_snoc_pair {A B C} (f : A → B) (g : A → C)
    (bs : list B) (cs : list C) (l : list A) :
  foldl (λ '(bs, cs) x, (bs ++ [f x], cs ++ [g x])) (bs, cs) l
  = (bs ++ (f <$> l), cs ++ (g <$> l)).
Proof.
  revert bs cs. induction l as [|x l IH]; intros bs cs; simpl.
  - by rewrite !app_nil_r.
  - by rewrite IH, <- !app_assoc.
Qed.

Lemma getGateways_listed (w : setup.World) (c : Client.t) gws :
  setup.List w = inl gws →
  setup.getGateways w c
  = ("Get gateways" :: ((λ gw, "Found gateway " +:+ setup.IDString gw) <$> gws),
     (λ gw, setup.GetEntityIdentifiers (setup.Ids gw)) <$> gws,
     None).
Proof.
  intros HL. unfold setup.getGateways. rewrite HL.
  by rewrite (foldl_snoc_pair
                (λ gw, "Found gateway " +:+ setup.IDString gw)
                (λ gw, setup.GetEntityIdentifiers (setup.Ids gw))).
Qed.

Lemma getGateways_failed (w : setup.World) (c : Client.t) err :
  setup.List w = inr err →
  setup.getGateways w c
  = (["Get gateways"], [], Some ("list gateways: " +:+ Error err)).
Proof. intros HL. unfold setup.getGateways. by rewrite HL. Qed.

Lemma NewClient_given (w : setup.World) (server apikey : string)
    (gateways : list string) :
  setup.dial w server = None →
  gateways ≠ [] →
  setup.NewClient w server apikey gateways
  = {| setup.calls := [setup.Dial server]; setup.logs := [];
       setup.result :=
         inl {| Client.server := server; Client.apikey := apikey;
                Client.gateways := ttnpb.GatewayIds <$> gateways;
                Client.esc := None |} |}.
Proof.
  intros Hd Hg. unfold setup.NewClient. rewrite Hd.
  case_decide as Hl; [by destruct gateways |].
  by rewrite (foldl_snoc_fmap
                (λ gw, setup.GetEntityIdentifiers
                         (Some {| setup.GatewayId := gw |}))).
Qed.

Lemma GetGatewayId_GatewayIds (gateways : list string) :
  ttnpb.GetGatewayId <$> (ttnpb.GatewayIds <$> gateways) = gateways.
Proof. rewrite <- list_fmap_compose. apply list_fmap_id. Qed.

(** Given a non-empty list of gateway names, [NewClient] dials and makes no
    other call: the registry is not asked. The client subscribes to exactly
    the names given, in the order given, and has no stream session yet. *)
Theorem NewClient_explicit_gateways (w : setup.World) (server apikey : string)
    (gateways : list string) :
  setup.dial w server = None →
  gateways ≠ [] →
  ∃ c,
    setup.NewClient w server apikey gateways
    = {| setup.calls := [setup.Dial server]; setup.logs := [];
         setup.result := inl c |}
    ∧ ttnpb.GetGatewayId <$> Client.gateways c = gateways
    ∧ Forall (λ id, ∃ gw, id = ttnpb.GatewayIds gw) (Client.gateways c)
    ∧ Client.server c = server ∧ Client.apikey c = apikey
    ∧ Client.esc c = None.
Proof.
  intros Hd Hg. eexists. split; [by apply NewClient_given |]. simpl.
  split; [apply GetGatewayId_GatewayIds |].
  split; [| done]. apply Forall_fmap, Forall_true. intros gw. by exists gw.
Qed.

(** Given no gateway names, [NewClient] asks the registry once and
    subscribes to every gateway listed, in the order listed; it logs the
    listing and one line per gateway found. *)
Theorem NewClient_discovers (w : setup.World) (server apikey : string) gws :
  setup.dial w server = None →
  setup.List w = inl gws →
  setup.NewClient w server apikey []
  = {| setup.calls := [setup.Dial server; setup.ListGateways];
       setup.logs :=
         "Get gateways"
           :: ((λ gw, "Found gateway " +:+ setup.IDString gw) <$> gws);
       setup.result :=
         inl {| Client.server := server; Client.apikey := apikey;
                Client.gateways := ttnpb.GatewayIds <$> (setup.IDString <$> gws);
                Client.esc := None |} |}.
Proof.
  intros Hd HL. unfold setup.NewClient. rewrite Hd. simpl.
  rewrite (getGateways_listed _ _ gws HL). by rewrite <- list_fmap_compose.
Qed.

(** [NewClient] fails in two ways. A failed dial gives [NewClient: ...] and
    the registry is not asked. A failed listing, which happens only when no
    gateway names were given, gives [getGateways: list gateways: ...]. No
    client is returned in either case. *)
Theorem NewClient_errors (w : setup.World) (server apikey : string)
    (gateways : list string) :
  (∀ err, setup.dial w server = Some err →
     setup.NewClient w server apikey gateways
     = {| setup.calls := [setup.Dial server]; setup.logs := [];
          setup.result := inr ("NewClient: " +:+ Error err) |})
  ∧ (∀ err, setup.dial w server = None → gateways = [] →
       setup.List w = inr err →
       setup.NewClient w server apikey gateways
       = {| setup.calls := [setup.Dial server; setup.ListGateways];
            setup.logs := ["Get gateways"];
            setup.result :=
              inr ("getGateways: list gateways: " +:+ Error err) |})
  ∧ (∀ msg, setup.result (setup.NewClient w server apikey gateways) = inr msg →
       (∃ err, setup.dial w server = Some err
               ∧ msg = "NewClient: " +:+ Error err)
       ∨ (∃ err, gateways = [] ∧ setup.List w = inr err
                 ∧ msg = "getGateways: list gateways: " +:+ Error err)).
Proof.
  split; [| split].
  - intros err Hd. unfold setup.NewClient. by rewrite Hd.
  - intros err Hd -> HL. unfold setup.NewClient. rewrite Hd. simpl.
    by rewrite (getGateways_failed _ _ err HL).
  - intros msg. unfold setup.NewClient.
    destruct (setup.dial w server) as [err|] eqn:Hd.
    { intros [= <-]. left. eauto. }
    case_decide as Hl; [| done].
    destruct (setup.List w) as [gws|err] eqn:HL.
    + by rewrite (getGateways_listed _ _ gws HL).
    + rewrite (getGateways_failed _ _ err HL). intros [= <-]. right.
      exists err. by destruct gateways.
Qed.

Lemma strings_Split_nonempty (s : string) (sep : ascii) :
  strings_Split s sep ≠ [].
Proof.
  destruct s as [|c s]; simpl; [done |].
  case_decide; [done |]. by destruct (strings_Split s sep).
Qed.

Lemma strings_Split_Join (s : string) (sep : ascii) :
  strings_Join (strings_Split s sep) (String sep "") = s.
Proof.
  unfold strings_Join. induction s as [|c s IH]; simpl; [done |].
  pose proof (strings_Split_nonempty s sep) as Hne.
  case_decide as Hc.
  - subst c. destruct (strings_Split s sep) as [|piece pieces]; [done |].
    simpl in *. by rewrite IH.
  - destruct (strings_Split s sep) as [|piece pieces]; [done |].
    destruct pieces; simpl in *; by rewrite <- IH.
Qed.

Lemma strings_Split_no_sep (s : string) (sep : ascii) :
  Forall (λ piece, sep ∉ String.list_ascii_of_string piece) (strings_Split s sep).
Proof.
  induction s as [|c s IH]; simpl.
  - repeat constructor. apply not_elem_of_nil.
  - case_decide as Hc.
    + constructor; [apply not_elem_of_nil | done].
    + destruct (strings_Split s sep) as [|piece pieces].
      * repeat constructor. simpl. rewrite elem_of_cons.
        intros [? | ?%elem_of_nil]; congruence.
      * inversion_clear IH as [|? ? Hp Hps]. constructor; [| done].
        simpl. rewrite elem_of_cons. intros [? | ?]; [congruence | done].
Qed.

Lemma start_with_key (w : setup.World) (env : gmap string string) apikey :
  env !! "LYTGAE_APIKEY" = Some apikey →
  let server := default "eu1.cloud.thethings.network:8884"
                        (env !! "LYTGAE_SERVER") in
  let gws := from_option (λ egws, strings_Split egws ","%char) []
                         (env !! "LYTGAE_GW") in
  let b := setup.NewClient w server apikey gws in
  setup.calls (setup.start w env) = setup.calls b
  ∧ setup.result (setup.start w env) = setup.result b
  ∧ setup.logs (setup.start w env)
    = (if env !! "LYTGAE_SERVER" is Some _ then []
       else ["LYTGAE_SERVER is not set, fallback to eu1.cloud.thethings.network:8884"])
      ++ setup.logs b.
Proof.
  intros Hk. unfold setup.start. rewrite Hk.
  by destruct (env !! "LYTGAE_SERVER"), (env !! "LYTGAE_GW").
Qed.

Lemma start_no_key (w : setup.World) (env : gmap string string) :
  env !! "LYTGAE_APIKEY" = None →
  setup.start w env
  = {| setup.calls := []; setup.logs := [];
       setup.result := inr "LYTGAE_APIKEY is not set" |}.
Proof. intros Hk. unfold setup.start. by rewrite Hk. Qed.

(** Start-up yields a client exactly when the API key is set, the dial
    succeeds, and the gateways are known: named in [LYTGAE_GW], or listed by
    the registry. Without the key nothing is called at all. *)
Theorem start_succeeds_iff (w : setup.World) (env : gmap string string) :
  ((∃ c, setup.result (setup.start w env) = inl c)
   ↔ is_Some (env !! "LYTGAE_APIKEY")
     ∧ setup.dial w (default "eu1.cloud.thethings.network:8884"
                             (env !! "LYTGAE_SERVER")) = None
     ∧ (is_Some (env !! "LYTGAE_GW") ∨ ∃ gws, setup.List w = inl gws))
  ∧ (env !! "LYTGAE_APIKEY" = None →
       setup.calls (setup.start w env) = []
       ∧ setup.result (setup.start w env) = inr "LYTGAE_APIKEY is not set").
Proof.
  split; [| intros Hk; by rewrite (start_no_key w env Hk)].
  destruct (env !! "LYTGAE_APIKEY") as [apikey|] eqn:Hk.
  2:{ rewrite (start_no_key w env Hk). simpl.
      split; [by intros [c [=]] | by intros [[? [=]] _]]. }
  destruct (start_with_key w env apikey Hk) as (_ & -> & _).
  set (server := default _ _).
  unfold setup.NewClient. destruct (setup.dial w server) as [err|] eqn:Hd.
  { simpl. split; [by intros [c [=]] | by intros (_ & [=] & _)]. }
  destruct (env !! "LYTGAE_GW") as [egws|] eqn:Hg; simpl.
  - pose proof (strings_Split_nonempty egws ",") as Hne.
    case_decide as Hl; [by destruct (strings_Split _ _) |].
    simpl. split; eauto.
  - destruct (setup.List w) as [gws|err] eqn:HL.
    + rewrite (getGateways_listed _ _ gws HL). split; eauto 6.
    + rewrite (getGateways_failed _ _ err HL). simpl.
      split; [by intros [c [=]] |].
      by intros (_ & _ & [[? [=]] | [? [=]]]).
Qed.

(** With an API key the first call dials the server named by
    [LYTGAE_SERVER], or [eu1.cloud.thethings.network:8884] when that variable
    is not set; the fallback is logged first, and only then. The client, if
    one is made, carries that server name and the key. *)
Theorem start_server_fallback (w : setup.World) (env : gmap string string) apikey :
  env !! "LYTGAE_APIKEY" = Some apikey →
  let server := default "eu1.cloud.thethings.network:8884"
                        (env !! "LYTGAE_SERVER") in
  head (setup.calls (setup.start w env)) = Some (setup.Dial server)
  ∧ (env !! "LYTGAE_SERVER" = None →
       head (setup.logs (setup.start w env))
       = Some "LYTGAE_SERVER is not set, fallback to eu1.cloud.thethings.network:8884")
  ∧ (∀ c, setup.result (setup.start w env) = inl c →
       Client.server c = server ∧ Client.apikey c = apikey
       ∧ Client.esc c = None).
Proof.
  intros Hk server. destruct (start_with_key w env apikey Hk) as (Hc & Hr & Hl).
  rewrite Hc, Hr, Hl. fold server. clear Hc Hr Hl.
  set (gws := from_option _ _ _). split; [| split].
  - unfold setup.NewClient. destruct (setup.dial w server); [done |].
    case_decide; [| done]. by destruct (setup.getGateways w _) as [[? ?] [?|]].
  - by intros ->.
  - intros c. unfold setup.NewClient. destruct (setup.dial w server); [done |].
    case_decide.
    + destruct (setup.getGateways w _) as [[? ?] [?|]]; [done |].
      by intros [= <-].
    + by intros [= <-].
Qed.

(** When [LYTGAE_GW] is set the client subscribes to the comma-separated
    names in it, in order: joining the subscribed names with commas gives the
    variable back, and no name contains a comma. The registry is not asked,
    even when the variable is empty, in which case the single name is the
    empty string. *)
Theorem start_gateways_from_env (w : setup.World) (env : gmap string string)
    apikey egws :
  env !! "LYTGAE_APIKEY" = Some apikey →
  env !! "LYTGAE_GW" = Some egws →
  setup.dial w (default "eu1.cloud.thethings.network:8884"
                        (env !! "LYTGAE_SERVER")) = None →
  ∃ c,
    setup.result (setup.start w env) = inl c
    ∧ (setup.ListGateways ∉ setup.calls (setup.start w env))
    ∧ strings_Join (ttnpb.GetGatewayId <$> Client.gateways c) "," = egws
    ∧ Client.gateways c ≠ []
    ∧ Forall (λ id, (","%char
                     ∉ String.list_ascii_of_string (ttnpb.GetGatewayId id)))
             (Client.gateways c)
    ∧ (egws = "" → Client.gateways c = [ttnpb.GatewayIds ""]).
Proof.
  intros Hk Hg Hd. destruct (start_with_key w env apikey Hk) as (Hc & Hr & _).
  rewrite Hc, Hr, Hg. simpl.
  rewrite NewClient_given by (done || apply strings_Split_nonempty).
  eexists. split; [done |]. simpl.
  split; [by intros [=]%list_elem_of_singleton |].
  rewrite GetGatewayId_GatewayIds.
  split; [apply strings_Split_Join |]. split.
  { pose proof (strings_Split_nonempty egws ","). by destruct (strings_Split _ _). }
  split; [| by intros ->].
  apply Forall_fmap. simpl. apply strings_Split_no_sep.
Qed.

(** The registry is asked for the gateways exactly when the API key is set,
    [LYTGAE_GW] is not set, and the dial succeeds. *)
Theorem start_discovery_iff (w : setup.World) (env : gmap string string) :
  setup.ListGateways ∈ setup.calls (setup.start w env)
  ↔ is_Some (env !! "LYTGAE_APIKEY")
    ∧ env !! "LYTGAE_GW" = None
    ∧ setup.dial w (default "eu1.cloud.thethings.network:8884"
                            (env !! "LYTGAE_SERVER")) = None.
Proof.
  destruct (env !! "LYTGAE_APIKEY") as [apikey|] eqn:Hk.
  2:{ rewrite (start_no_key w env Hk). simpl.
      split; [by intros ?%elem_of_nil | by intros [[? [=]] _]]. }
  destruct (start_with_key w env apikey Hk) as (-> & _ & _).
  set (server := default _ _).
  unfold setup.NewClient. destruct (setup.dial w server) as [err|] eqn:Hd.
  { simpl. split; [by intros [=]%list_elem_of_singleton | by intros (_ & _ & [=])]. }
  destruct (env !! "LYTGAE_GW") as [egws|] eqn:Hg; simpl.
  - pose proof (strings_Split_nonempty egws ",") as Hne.
    case_decide as Hl; [by destruct (strings_Split _ _) |].
    simpl. split; [by intros [=]%list_elem_of_singleton | by intros (_ & [=] & _)].
  - destruct (setup.getGateways w _) as [[? ?] [?|]]; simpl;
      (split; [eauto | intros _; apply list_elem_of_further, list_elem_of_here]).
Qed.

(** ** The reporter: gauges, log and map together *)

Section ReporterMore.
Context (Format : string → time.Time → string).

Lemma handle_stats_registry (st : main.State) (ev : events.Event) data :
  recognized ev data →
  let gws := main.storeAll data (events.Identifiers ev) (main.gateways st) in
  main.registry (main.handle Format st ev)
  = (foldl (main.logGateway Format gws) (main.registry st, main.logged st)
           (slices_Sort (maps_Keys gws))).1
  ∧ main.logged (main.handle Format st ev)
    = (foldl (main.logGateway Format gws) (main.registry st, main.logged st)
             (slices_Sort (maps_Keys gws))).2.
Proof.
  intros [Hn Hd]. simpl. unfold main.handle. case_decide; [done |]. rewrite Hd.
  by destruct (foldl _ _ _).
Qed.

(** A property of the registry that every rendering preserves holds after
    the whole log loop. *)
Lemma foldl_logGateway_preserved (P : Registry → Prop)
    (gws : gmap string Gateway.t) (k : list string) (r : Registry)
    (l : list string) :
  P r →
  (∀ g gw r, g ∈ k → gws !! g = Some gw → P r →
             P (Gateway.String Format gw r).2) →
  P (foldl (main.logGateway Format gws) (r, l) k).1.
Proof.
  revert r l. induction k as [|g k IH]; intros r l Hr Hp; simpl; [done |].
  destruct (gws !! g) as [gw|] eqn:Hg.
  - pose proof (Hp g gw r (list_elem_of_here _ _) Hg Hr) as Hr'.
    destruct (Gateway.String Format gw r) as [s r1]. apply IH; [done |].
    intros g' gw' r' Hin. apply Hp. by right.
  - apply IH; [done |]. intros g' gw' r' Hin. apply Hp. by right.
Qed.

(** A property that the rendering of the gateway under [x] establishes and
    the others preserve holds after the log loop when [x] is among the
    keys. *)
Lemma foldl_logGateway_established (Q : Registry → Prop)
    (gws : gmap string Gateway.t) (k : list string) (r : Registry)
    (l : list string) (x : string) (gw : Gateway.t) :
  x ∈ k → gws !! x = Some gw →
  (∀ r, Q (Gateway.String Format gw r).2) →
  (∀ g gw' r, g ∈ k → gws !! g = Some gw' → Q r →
              Q (Gateway.String Format gw' r).2) →
  Q (foldl (main.logGateway Format gws) (r, l) k).1.
Proof.
  revert r l. induction k as [|g k IH]; intros r l Hx Hgw Hq Hp.
  { by apply elem_of_nil in Hx. }
  simpl. apply elem_of_cons in Hx as [<- | Hx].
  - rewrite Hgw. pose proof (Hq r) as Hr'.
    destruct (Gateway.String Format gw r) as [s r1].
    apply foldl_logGateway_preserved; [done |].
    intros g' gw' r' Hin. apply Hp. by right.
  - destruct (gws !! g) as [gw0|];
      [destruct (Gateway.String Format gw0 r) as [s r1] |];
      (apply IH; [done | done | done |]);
      intros g' gw' r' Hin; apply Hp; by right.
Qed.

(** With consistent keys, a sample that the rendering of the record under
    [x] sets under label [(x, kind)] is there after the log loop. *)
Lemma logged_gauge (sel : Registry → gmap (string * string) float64)
    (gws : gmap string Gateway.t) (r : Registry) (l : list string)
    (x kind : string) (gw : Gateway.t) (v : float64) :
  (∀ g y kd r, y ≠ Gateway.id g →
     sel (Gateway.String Format g r).2 !! (y, kd) = sel r !! (y, kd)) →
  keysConsistent gws →
  gws !! x = Some gw →
  (∀ r, sel (Gateway.String Format gw r).2 !! (x, kind) = Some v) →
  sel (foldl (main.logGateway Format gws) (r, l)
             (slices_Sort (maps_Keys gws))).1 !! (x, kind) = Some v.
Proof.
  intros Hframe Hkc Hgw Hset.
  apply (foldl_logGateway_established
           (λ r, sel r !! (x, kind) = Some v) gws _ r l x gw);
    [by apply elem_of_sorted_keys | done | done |].
  intros g gw' r' _ Hg Hr'. destruct (decide (g = x)) as [-> | Hne].
  - assert (gw' = gw) as -> by congruence. apply Hset.
  - rewrite Hframe; [done |]. rewrite (Hkc g gw' Hg). congruence.
Qed.

Lemma storeAll_keysConsistent data ids (m : gmap string Gateway.t) :
  keysConsistent m → keysConsistent (main.storeAll data ids m).
Proof.
  intros Hm k gw. rewrite storeAll_lookup. case_decide; [| by apply Hm].
  by intros [= <-].
Qed.

Lemma String_frame_gwTime (g : Gateway.t) (y kd : string) (r : Registry) :
  y ≠ Gateway.id g →
  gwTime (Gateway.String Format g r).2 !! (y, kd) = gwTime r !! (y, kd).
Proof. intros Hy. by apply String_frame. Qed.

Lemma String_frame_gwCount (g : Gateway.t) (y kd : string) (r : Registry) :
  y ≠ Gateway.id g →
  gwCount (Gateway.String Format g r).2 !! (y, kd) = gwCount r !! (y, kd).
Proof. intros Hy. by apply String_frame. Qed.

(** After a recognized event, a sample that the rendering of the record
    under [k] always sets is in the registry under the label [k]. *)
Lemma handle_gauge (sel : Registry → gmap (string * string) float64)
    (st : main.State) (ev : events.Event) data (k kind : string)
    (gw : Gateway.t) (v : float64) :
  (∀ g y kd r, y ≠ Gateway.id g →
     sel (Gateway.String Format g r).2 !! (y, kd) = sel r !! (y, kd)) →
  keysConsistent (main.gateways st) →
  recognized ev data →
  main.gateways (main.handle Format st ev) !! k = Some gw →
  (∀ r, sel (Gateway.String Format gw r).2 !! (Gateway.id gw, kind) = Some v) →
  sel (main.registry (main.handle Format st ev)) !! (k, kind) = Some v.
Proof.
  intros Hframe Hkc Hr Hk Hset.
  destruct (handle_stats_registry st ev data Hr) as [-> _].
  rewrite (handle_stats_gateways Format st ev data) in Hk by apply Hr.
  set (gws := main.storeAll data (events.Identifiers ev) (main.gateways st)) in *.
  assert (keysConsistent gws) as Hkc' by by apply storeAll_keysConsistent.
  assert (Gateway.id gw = k) as <- by by apply Hkc'.
  by apply (logged_gauge sel gws _ _ _ _ gw).
Qed.

(** After a recognized event the gauges agree with the map: for every
    record in the map, each field that is set has its value published under
    the record's key. The map must store every record under its own
    identifier, as it does in every state the reporter reaches. *)
Theorem gauges_follow_map (st : main.State) (ev : events.Event) data
    (k : string) (gw : Gateway.t) :
  keysConsistent (main.gateways st) →
  recognized ev data →
  main.gateways (main.handle Format st ev) !! k = Some gw →
  let r' := main.registry (main.handle Format st ev) in
  (time.Time_Unix (Gateway.connectTime gw) ≠ 0 →
     gwTime r' !! (k, "connect")
     = Some (float64_of (time.Time_Unix (Gateway.connectTime gw))))
  ∧ (Gateway.uplinkCount gw ≠ 0 →
       gwTime r' !! (k, "uplink")
       = Some (float64_of (time.Time_Unix (Gateway.uplinkTime gw)))
       ∧ gwCount r' !! (k, "uplink") = Some (float64_of (Gateway.uplinkCount gw)))
  ∧ (Gateway.downlinkCount gw ≠ 0 →
       gwTime r' !! (k, "downlink")
       = Some (float64_of (time.Time_Unix (Gateway.downlinkTime gw)))
       ∧ gwCount r' !! (k, "downlink")
         = Some (float64_of (Gateway.downlinkCount gw)))
  ∧ (Gateway.txAckCount gw ≠ 0 →
       gwTime r' !! (k, "txack")
       = Some (float64_of (time.Time_Unix (Gateway.txAckTime gw)))
       ∧ gwCount r' !! (k, "txack") = Some (float64_of (Gateway.txAckCount gw))).
Proof.
  intros Hkc Hr Hk. simpl.
  split; [| split; [| split]]; intros Hset; [| split | split | split].
  - apply (handle_gauge gwTime st ev data k _ gw);
      auto using String_frame_gwTime, String_connect_set.
  - apply (handle_gauge gwTime st ev data k _ gw);
      auto using String_frame_gwTime.
    intros r. by apply String_uplink_set.
  - apply (handle_gauge gwCount st ev data k _ gw);
      auto using String_frame_gwCount.
    intros r. by apply String_uplink_set.
  - apply (handle_gauge gwTime st ev data k _ gw);
      auto using String_frame_gwTime.
    intros r. by apply String_downlink_set.
  - apply (handle_gauge gwCount st ev data k _ gw);
      auto using String_frame_gwCount.
    intros r. by apply String_downlink_set.
  - apply (handle_gauge gwTime st ev data k _ gw);
      auto using String_frame_gwTime.
    intros r. by apply String_txack_set.
  - apply (handle_gauge gwCount st ev data k _ gw);
      auto using String_frame_gwCount.
    intros r. by apply String_txack_set.
Qed.

Lemma AsTime_well_formed (ts : timestamppb.Timestamp) :
  0 ≤ timestamppb.Nanos ts < 1000000000 →
  time.Time_Unix (timestamppb.AsTime (Some ts)) = timestamppb.Seconds ts.
Proof.
  intros Hn. unfold timestamppb.AsTime, time.Unix. simpl.
  case_decide as H; [lia | done].
Qed.

(** From event to gauge: after a recognized event, under every gateway name
    it carries, each count gauge shows the event's count when that count is
    not zero, and the connect gauge shows the seconds of the event's connect
    time when that time is well formed and not the epoch. *)
Theorem event_values_published (st : main.State) (ev : events.Event)
    (stats : ttnpb.GatewayConnectionStats) (k : string) :
  keysConsistent (main.gateways st) →
  recognized ev (Some stats) →
  k ∈ named ev →
  let r' := main.registry (main.handle Format st ev) in
  (ttnpb.UplinkCount stats ≠ 0 →
     gwCount r' !! (k, "uplink") = Some (float64_of (ttnpb.UplinkCount stats)))
  ∧ (ttnpb.DownlinkCount stats ≠ 0 →
       gwCount r' !! (k, "downlink")
       = Some (float64_of (ttnpb.DownlinkCount stats)))
  ∧ (ttnpb.TxAcknowledgmentCount stats ≠ 0 →
       gwCount r' !! (k, "txack")
       = Some (float64_of (ttnpb.TxAcknowledgmentCount stats)))
  ∧ (∀ ts, ttnpb.ConnectedAt stats = Some ts →
       0 ≤ timestamppb.Nanos ts < 1000000000 →
       timestamppb.Seconds ts ≠ 0 →
       gwTime r' !! (k, "connect") = Some (float64_of (timestamppb.Seconds ts))).
Proof.
  intros Hkc Hr Hk. simpl.
  assert (main.gateways (main.handle Format st ev) !! k
          = Some (main.newGateway k (Some stats))) as Hgw.
  { rewrite (handle_stats_gateways Format st ev (Some stats)) by apply Hr.
    rewrite storeAll_lookup. by case_decide. }
  split; [| split; [| split]].
  - intros H.
    apply (handle_gauge gwCount st ev (Some stats) k _ _ _
             String_frame_gwCount Hkc Hr Hgw).
    intros r. by apply String_uplink_set.
  - intros H.
    apply (handle_gauge gwCount st ev (Some stats) k _ _ _
             String_frame_gwCount Hkc Hr Hgw).
    intros r. by apply String_downlink_set.
  - intros H.
    apply (handle_gauge gwCount st ev (Some stats) k _ _ _
             String_frame_gwCount Hkc Hr Hgw).
    intros r. by apply String_txack_set.
  - intros ts Hts Hn Hs.
    rewrite <- (AsTime_well_formed ts Hn) in Hs |- *. rewrite <- Hts in Hs |- *.
    apply (handle_gauge gwTime st ev (Some stats) k _ _ _
             String_frame_gwTime Hkc Hr Hgw).
    intros r. by apply String_connect_set.
Qed.

(** The reporter never removes a gauge sample, and a step changes no sample
    whose gateway label is not a key of the map after the step. *)
Theorem gauges_only_for_stored (st : main.State) (ev : events.Event) :
  keysConsistent (main.gateways st) →
  let st' := main.handle Format st ev in
  dom (gwTime (main.registry st)) ⊆ dom (gwTime (main.registry st'))
  ∧ dom (gwCount (main.registry st)) ⊆ dom (gwCount (main.registry st'))
  ∧ (∀ x kind, main.gateways st' !! x = None →
       gwTime (main.registry st') !! (x, kind)
       = gwTime (main.registry st) !! (x, kind)
       ∧ gwCount (main.registry st') !! (x, kind)
         = gwCount (main.registry st) !! (x, kind)).
Proof.
  intros Hkc. simpl.
  destruct (decide (events.Name ev = "gs.gateway.connection.stats")) as [Hn|Hn];
    [| by rewrite handle_other_name].
  destruct (events.Data ev) as [|data|ty] eqn:Hd;
    [rewrite handle_other_data; [done | done | congruence] | |
     rewrite handle_other_data; [done | done | congruence]].
  assert (recognized ev data) as Hr by done.
  destruct (handle_stats_registry st ev data Hr) as [-> _].
  rewrite (handle_stats_gateways Format st ev data) by done.
  set (gws := main.storeAll data (events.Identifiers ev) (main.gateways st)).
  assert (keysConsistent gws) as Hkc' by by apply storeAll_keysConsistent.
  split; [| split].
  - apply (foldl_logGateway_preserved
             (λ r, dom (gwTime (main.registry st)) ⊆ dom (gwTime r)));
      [done |].
    intros g gw r _ _ Hsub key Hkey. apply Hsub in Hkey.
    revert Hkey. rewrite !elem_of_dom. apply String_keeps.
  - apply (foldl_logGateway_preserved
             (λ r, dom (gwCount (main.registry st)) ⊆ dom (gwCount r)));
      [done |].
    intros g gw r _ _ Hsub key Hkey. apply Hsub in Hkey.
    revert Hkey. rewrite !elem_of_dom. apply String_keeps.
  - intros x kind Hx.
    apply (foldl_logGateway_preserved
             (λ r, gwTime r !! (x, kind) = gwTime (main.registry st) !! (x, kind)
                   ∧ gwCount r !! (x, kind)
                     = gwCount (main.registry st) !! (x, kind)));
      [done |].
    intros g gw r _ Hg [HT HC].
    assert (x ≠ Gateway.id gw) as Hne.
    { rewrite (Hkc' g gw Hg). intros ->. congruence. }
    destruct (String_frame Format gw r x kind Hne) as [-> ->]. done.
Qed.

End ReporterMore.

(** ** The reporter: the map over a run *)

Section MapMore.
Context (Format : string → time.Time → string).

Lemma recognized_or_not (ev : events.Event) :
  (∃ data, recognized ev data) ∨ (∀ data, ¬ recognized ev data).
Proof.
  unfold recognized.
  destruct (decide (events.Name ev = "gs.gateway.connection.stats")) as [Hn|Hn];
    [| right; tauto].
  destruct (events.Data ev) as [|data|ty]; [right | left | right];
    [intros ? [_ [=]] | eauto | intros ? [_ [=]]].
Qed.

Lemma handle_lookup_recognized (st : main.State) (ev : events.Event) data
    (k : string) :
  recognized ev data →
  main.gateways (main.handle Format st ev) !! k =
    if decide (k ∈ named ev) then Some (main.newGateway k data)
    else main.gateways st !! k.
Proof.
  intros [Hn Hd]. rewrite (handle_stats_gateways _ _ _ data) by done.
  apply storeAll_lookup.
Qed.

Lemma handle_unrecognized_gateways (st : main.State) (ev : events.Event) :
  (∀ data, ¬ recognized ev data) →
  main.gateways (main.handle Format st ev) = main.gateways st.
Proof. intros Hu. by apply handle_unrecognized. Qed.

Lemma storeAll_size data ids (m : gmap string Gateway.t) :
  (size (main.storeAll data ids m) ≤ size m + length ids)%nat.
Proof.
  unfold main.storeAll. revert m.
  induction ids as [|i ids IH]; intros m; simpl; [lia |].
  etrans; [apply IH |]. rewrite map_size_insert.
  destruct (m !! _); unfold id; lia.
Qed.

(** One event grows the map by at most the number of identifiers it carries
    and never shrinks it. *)
Theorem map_size_bounds (st : main.State) (ev : events.Event) :
  (size (main.gateways st) ≤ size (main.gateways (main.handle Format st ev))
   ≤ size (main.gateways st) + length (events.Identifiers ev))%nat.
Proof.
  destruct (recognized_or_not ev) as [[data Hr] | Hu].
  - rewrite (handle_stats_gateways _ _ _ data) by apply Hr.
    split; [| apply storeAll_size].
    apply dom_subseteq_size. intros k. rewrite !elem_of_dom.
    apply storeAll_keeps.
  - rewrite handle_unrecognized_gateways by done. lia.
Qed.

(** Two events that name no gateway in common can be applied in either
    order: the map ends up the same. *)
Theorem disjoint_events_commute (st : main.State) (e1 e2 : events.Event) :
  (∀ k, k ∈ named e1 → k ∈ named e2 → False) →
  main.gateways (main.handle Format (main.handle Format st e1) e2)
  = main.gateways (main.handle Format (main.handle Format st e2) e1).
Proof.
  intros Hdis.
  destruct (recognized_or_not e1) as [[d1 H1] | H1],
           (recognized_or_not e2) as [[d2 H2] | H2].
  - apply map_eq. intros k.
    rewrite (handle_lookup_recognized _ e2 d2), (handle_lookup_recognized _ e1 d1),
            (handle_lookup_recognized _ e1 d1), (handle_lookup_recognized _ e2 d2)
      by done.
    repeat case_decide; try done. by destruct (Hdis k).
  - rewrite (handle_unrecognized_gateways _ e2) by done.
    rewrite !(handle_stats_gateways _ _ e1 d1) by apply H1.
    by rewrite handle_unrecognized_gateways.
  - rewrite (handle_unrecognized_gateways _ e1) by done.
    rewrite !(handle_stats_gateways _ _ e2 d2) by apply H2.
    by rewrite handle_unrecognized_gateways.
  - by rewrite !handle_unrecognized_gateways.
Qed.

(** Delivering the same event twice in a row leaves the map as the first
    delivery left it. *)
Theorem redelivery_keeps_map (st : main.State) (ev : events.Event) :
  main.gateways (main.handle Format (main.handle Format st ev) ev)
  = main.gateways (main.handle Format st ev).
Proof.
  destruct (recognized_or_not ev) as [[data Hr] | Hu].
  - apply map_eq. intros k.
    rewrite !(handle_lookup_recognized _ ev data) by done. by case_decide.
  - by rewrite !handle_unrecognized_gateways.
Qed.

Lemma reporter_untouched (post : list events.Event) (st : main.State)
    (k : string) :
  Forall (λ e, ∀ d, recognized e d → k ∉ named e) post →
  main.gateways (main.reporter Format post st) !! k = main.gateways st !! k.
Proof.
  intros Hpost. revert st. unfold main.reporter.
  induction Hpost as [|e post He _ IH]; intros st; simpl; [done |].
  rewrite IH.
  destruct (recognized_or_not e) as [[d Hr] | Hu].
  - rewrite (handle_lookup_recognized _ e d) by done.
    case_decide; [by destruct (He d) | done].
  - by rewrite handle_unrecognized_gateways.
Qed.

(** The record under a key is the one built from the last recognized event
    that names the key, whatever events naming other gateways, or events
    that are not recognized, arrive after it. *)
Theorem last_naming_event_wins (evs post : list events.Event)
    (st : main.State) (ev : events.Event) data (k : string) :
  recognized ev data →
  k ∈ named ev →
  Forall (λ e, ∀ d, recognized e d → k ∉ named e) post →
  main.gateways (main.reporter Format (evs ++ ev :: post) st) !! k
  = Some (main.newGateway k data).
Proof.
  intros Hr Hk Hpost. rewrite reporter_app. simpl.
  rewrite reporter_untouched by done.
  rewrite (handle_lookup_recognized _ ev data) by done. by case_decide.
Qed.

(** Every record in the map was built from a recognized event of the run
    that names its key: the reporter stores nothing of its own making. *)
Theorem records_come_from_events (evs : list events.Event) (k : string)
    (gw : Gateway.t) :
  main.gateways (main.reporter Format evs main.initial) !! k = Some gw →
  ∃ ev data, ev ∈ evs ∧ recognized ev data ∧ k ∈ named ev
             ∧ gw = main.newGateway k data.
Proof.
  induction evs as [|ev evs IH] using rev_ind.
  - simpl. by rewrite lookup_empty.
  - rewrite reporter_app. simpl.
    destruct (recognized_or_not ev) as [[data Hr] | Hu].
    + rewrite (handle_lookup_recognized _ ev data) by done.
      case_decide as Hin.
      * intros [= <-]. exists ev, data. rewrite elem_of_app, list_elem_of_singleton.
        auto.
      * intros Hk. destruct (IH Hk) as (ev' & data' & Hin' & Hrest).
        exists ev', data'. rewrite elem_of_app. auto.
    + rewrite handle_unrecognized_gateways by done.
      intros Hk. destruct (IH Hk) as (ev' & data' & Hin' & Hrest).
      exists ev', data'. rewrite elem_of_app. auto.
Qed.

(** An identifier that is not a gateway identifier has the empty gateway
    name: a recognized event carrying one stores its values under the empty
    key. *)
Theorem other_identifiers_use_empty_key (st : main.State) (ev : events.Event)
    data (id : ttnpb.EntityIdentifiers) :
  recognized ev data →
  id ∈ events.Identifiers ev →
  (∀ gateway_id, id ≠ ttnpb.GatewayIds gateway_id) →
  main.gateways (main.handle Format st ev) !! ""
  = Some (main.newGateway "" data).
Proof.
  intros Hr Hin Hid.
  rewrite (handle_lookup_recognized _ ev data) by done.
  case_decide as Hn; [done |]. destruct Hn. unfold named.
  apply list_elem_of_fmap. exists id. split; [| done].
  destruct id; try done. by destruct (Hid gateway_id).
Qed.

End MapMore.

(** ** The further properties at concrete inputs *)

Lemma other_error_fatal_witness :
  fixture.broken 0%nat
  = StreamOk ([RecvOk (sample.raw sample.E1)]
                ++ RecvErr fixture.internal :: [RecvOk (sample.raw sample.E2)])
  ∧ Forall passes [RecvOk (sample.raw sample.E1)]
  ∧ errors.IsCanceled fixture.internal = false
  ∧ errors.IsUnavailable fixture.internal = false
  ∧ Client.getEvents fixture.broken sample.client
    = {| Client.effects := [EStream [ttnpb.GatewayIds "gw1"]; ESend sample.E1];
         Client.client := Client.set_esc sample.client 0;
         Client.result := Client.Returned "recv: stream reset" |}.
Proof.
  assert (Forall passes [RecvOk (sample.raw sample.E1)]) as Hp
    by (repeat constructor).
  split; [reflexivity | split; [exact Hp | split; [reflexivity | split; [reflexivity |]]]].
  exact (other_error_fatal fixture.broken sample.client
           [RecvOk (sample.raw sample.E1)] fixture.internal
           [RecvOk (sample.raw sample.E2)] eq_refl Hp eq_refl eq_refl).
Defined.

Lemma forwards_in_order_witness :
  fixture.broken 0%nat
  = StreamOk ([RecvOk (sample.raw sample.E1)]
                ++ RecvErr fixture.internal :: [RecvOk (sample.raw sample.E2)])
  ∧ ∃ pre post,
      [RecvOk (sample.raw sample.E1)]
        ++ RecvErr fixture.internal :: [RecvOk (sample.raw sample.E2)]
      = pre ++ post
      ∧ Client.sent (Client.getEvents fixture.broken sample.client) = delivered pre.
Proof.
  split; [reflexivity |].
  destruct (forwards_in_order fixture.broken sample.client _ eq_refl)
    as (pre & post & Hsplit & _ & Hsent & _).
  exists pre, post. split; [exact Hsplit | exact Hsent].
Defined.

Lemma NewClient_explicit_gateways_witness :
  setup.dial fixture.world "eu1.cloud.thethings.network:8884" = None
  ∧ ["gw1"; "gw2"] ≠ []
  ∧ ∃ c,
      setup.result (setup.NewClient fixture.world
                      "eu1.cloud.thethings.network:8884" "NNSXS.KEY" ["gw1"; "gw2"])
      = inl c
      ∧ ttnpb.GetGatewayId <$> Client.gateways c = ["gw1"; "gw2"].
Proof.
  assert (["gw1"; "gw2"] ≠ @nil string) as Hne by discriminate.
  split; [reflexivity | split; [exact Hne |]].
  destruct (NewClient_explicit_gateways fixture.world
              "eu1.cloud.thethings.network:8884" "NNSXS.KEY" ["gw1"; "gw2"]
              eq_refl Hne) as (c & Hc & Hg & _).
  exists c. split; [| exact Hg]. rewrite Hc. reflexivity.
Defined.

Lemma NewClient_discovers_witness :
  setup.dial fixture.world "eu1.cloud.thethings.network:8884" = None
  ∧ setup.List fixture.world
    = inl [ {| setup.Ids := Some {| setup.GatewayId := "gw9" |} |};
            {| setup.Ids := None |} ]
  ∧ setup.NewClient fixture.world "eu1.cloud.thethings.network:8884" "NNSXS.KEY" []
    = {| setup.calls := [setup.Dial "eu1.cloud.thethings.network:8884";
                         setup.ListGateways];
         setup.logs := ["Get gateways"; "Found gateway gw9"; "Found gateway "];
         setup.result :=
           inl {| Client.server := "eu1.cloud.thethings.network:8884";
                  Client.apikey := "NNSXS.KEY";
                  Client.gateways := [ttnpb.GatewayIds "gw9"; ttnpb.GatewayIds ""];
                  Client.esc := None |} |}.
Proof.
  split; [reflexivity | split; [reflexivity |]].
  exact (NewClient_discovers fixture.world "eu1.cloud.thethings.network:8884"
           "NNSXS.KEY" _ eq_refl eq_refl).
Defined.

Lemma start_server_fallback_witness :
  fixture.env !! "LYTGAE_APIKEY" = Some "NNSXS.KEY"
  ∧ head (setup.calls (setup.start fixture.world fixture.env))
    = Some (setup.Dial "eu1.cloud.thethings.network:8884").
Proof.
  split; [reflexivity |].
  exact (proj1 (start_server_fallback fixture.world fixture.env "NNSXS.KEY" eq_refl)).
Defined.

Lemma start_gateways_from_env_witness :
  fixture.env !! "LYTGAE_APIKEY" = Some "NNSXS.KEY"
  ∧ fixture.env !! "LYTGAE_GW" = Some "gw1,gw2"
  ∧ setup.dial fixture.world
      (default "eu1.cloud.thethings.network:8884" (fixture.env !! "LYTGAE_SERVER"))
    = None
  ∧ ∃ c,
      setup.result (setup.start fixture.world fixture.env) = inl c
      ∧ strings_Join (ttnpb.GetGatewayId <$> Client.gateways c) "," = "gw1,gw2".
Proof.
  split; [reflexivity | split; [reflexivity | split; [reflexivity |]]].
  destruct (start_gateways_from_env fixture.world fixture.env "NNSXS.KEY" "gw1,gw2"
              eq_refl eq_refl eq_refl) as (c & Hc & _ & Hj & _).
  exists c. split; [exact Hc | exact Hj].
Defined.

Lemma initial_keysConsistent : keysConsistent (main.gateways main.initial).
Proof. intros k gw. simpl. rewrite lookup_empty. discriminate. Qed.

Lemma gauges_follow_map_witness :
  keysConsistent (main.gateways main.initial)
  ∧ recognized sample.E1 (Some (sample.uplinks 3 sample.t1))
  ∧ main.gateways (main.handle formatUTC main.initial sample.E1) !! "gw1"
    = Some (main.newGateway "gw1" (Some (sample.uplinks 3 sample.t1)))
  ∧ gwCount (main.registry (main.handle formatUTC main.initial sample.E1))
      !! ("gw1", "uplink") = Some (float64_of 3).
Proof.
  assert (recognized sample.E1 (Some (sample.uplinks 3 sample.t1))) as Hr
    by (split; reflexivity).
  assert (main.gateways (main.handle formatUTC main.initial sample.E1) !! "gw1"
          = Some (main.newGateway "gw1" (Some (sample.uplinks 3 sample.t1)))) as Hk
    by (vm_compute; reflexivity).
  split; [exact initial_keysConsistent | split; [exact Hr | split; [exact Hk |]]].
  destruct (gauges_follow_map formatUTC main.initial sample.E1 _ "gw1" _
              initial_keysConsistent Hr Hk) as (_ & Hu & _).
  apply Hu. discriminate.
Defined.

Lemma event_values_published_witness :
  keysConsistent (main.gateways main.initial)
  ∧ recognized fixture.EC (Some (fixture.connected 4))
  ∧ "gw1" ∈ named fixture.EC
  ∧ gwCount (main.registry (main.handle formatUTC main.initial fixture.EC))
      !! ("gw1", "uplink") = Some (float64_of 4)
  ∧ gwTime (main.registry (main.handle formatUTC main.initial fixture.EC))
      !! ("gw1", "connect") = Some (float64_of 1700000000).
Proof.
  assert (recognized fixture.EC (Some (fixture.connected 4))) as Hr
    by (split; reflexivity).
  assert ("gw1" ∈ named fixture.EC) as Hk by (vm_compute; left).
  split; [exact initial_keysConsistent | split; [exact Hr | split; [exact Hk |]]].
  destruct (event_values_published formatUTC main.initial fixture.EC _ "gw1"
              initial_keysConsistent Hr Hk) as (Hu & _ & _ & Hc).
  split; [apply Hu; discriminate |].
  apply (Hc {| timestamppb.Seconds := sample.t1; timestamppb.Nanos := 0 |});
    [reflexivity | simpl; lia | discriminate].
Defined.

Lemma gauges_only_for_stored_witness :
  keysConsistent (main.gateways seeded)
  ∧ gwCount (main.registry seeded) !! ("gw1", "uplink") = Some (float64_of 3)
  ∧ gwTime (main.registry seeded) !! ("gw0", "connect") = Some (float64_of 5)
  ∧ main.gateways (main.handle formatUTC seeded fixture.E3) !! "gw0" = None
  ∧ ("gw1", "uplink")
      ∈ dom (gwCount (main.registry (main.handle formatUTC seeded fixture.E3)))
  ∧ gwTime (main.registry (main.handle formatUTC seeded fixture.E3))
      !! ("gw0", "connect") = Some (float64_of 5).
Proof.
  assert (keysConsistent (main.gateways seeded)) as Hkc.
  { exact (handle_keysConsistent formatUTC main.initial sample.E1
             initial_keysConsistent). }
  assert (gwCount (main.registry seeded) !! ("gw1", "uplink")
          = Some (float64_of 3)) as Hup by (vm_compute; reflexivity).
  assert (gwTime (main.registry seeded) !! ("gw0", "connect")
          = Some (float64_of 5)) as Hold by (vm_compute; reflexivity).
  assert (main.gateways (main.handle formatUTC seeded fixture.E3) !! "gw0" = None)
    as Hout by (vm_compute; reflexivity).
  destruct (gauges_only_for_stored formatUTC seeded fixture.E3 Hkc)
    as (_ & Hsub & Hsame).
  split; [exact Hkc | split; [exact Hup | split; [exact Hold |
    split; [exact Hout | split]]]].
  - apply Hsub. apply elem_of_dom. rewrite Hup. eexists. reflexivity.
  - destruct (Hsame "gw0" "connect" Hout) as [HT _]. rewrite HT. exact Hold.
Defined.

Lemma disjoint_events_commute_witness :
  (∀ k, k ∈ named sample.E1 → k ∈ named fixture.E3 → False)
  ∧ main.gateways (main.handle formatUTC
                     (main.handle formatUTC main.initial sample.E1) fixture.E3)
    = main.gateways (main.handle formatUTC
                       (main.handle formatUTC main.initial fixture.E3) sample.E1).
Proof.
  assert (∀ k, k ∈ named sample.E1 → k ∈ named fixture.E3 → False) as Hdis.
  { intros k. change (named sample.E1) with ["gw1"].
    change (named fixture.E3) with ["gw2"].
    intros ->%list_elem_of_singleton [=]%list_elem_of_singleton. }
  split; [exact Hdis |].
  exact (disjoint_events_commute formatUTC main.initial sample.E1 fixture.E3 Hdis).
Defined.

Lemma last_naming_event_wins_witness :
  recognized sample.E2 (Some (sample.uplinks 5 sample.t2))
  ∧ "gw1" ∈ named sample.E2
  ∧ Forall (λ e, ∀ d, recognized e d → "gw1" ∉ named e) [fixture.E3; sample.status]
  ∧ main.gateways
      (main.reporter formatUTC
         ([sample.E1] ++ sample.E2 :: [fixture.E3; sample.status]) main.initial)
      !! "gw1"
    = Some (main.newGateway "gw1" (Some (sample.uplinks 5 sample.t2))).
Proof.
  assert (recognized sample.E2 (Some (sample.uplinks 5 sample.t2))) as Hr
    by (split; reflexivity).
  assert ("gw1" ∈ named sample.E2) as Hk by (vm_compute; left).
  assert (Forall (λ e, ∀ d, recognized e d → "gw1" ∉ named e)
                 [fixture.E3; sample.status]) as Hpost.
  { repeat constructor.
    - intros d _. change (named fixture.E3) with ["gw2"].
      intros [=]%list_elem_of_singleton.
    - intros d [_ [=]]. }
  split; [exact Hr | split; [exact Hk | split; [exact Hpost |]]].
  exact (last_naming_event_wins formatUTC [sample.E1] [fixture.E3; sample.status]
           main.initial sample.E2 _ "gw1" Hr Hk Hpost).
Defined.

Lemma records_come_from_events_witness :
  main.gateways (main.reporter formatUTC [sample.E1; fixture.E3] main.initial)
    !! "gw2"
  = Some (main.newGateway "gw2" (Some (sample.uplinks 9 sample.t2)))
  ∧ ∃ ev data, ev ∈ [sample.E1; fixture.E3] ∧ recognized ev data ∧ "gw2" ∈ named ev.
Proof.
  assert (main.gateways (main.reporter formatUTC [sample.E1; fixture.E3] main.initial)
            !! "gw2"
          = Some (main.newGateway "gw2" (Some (sample.uplinks 9 sample.t2)))) as Hk
    by (vm_compute; reflexivity).
  split; [exact Hk |].
  destruct (records_come_from_events formatUTC _ _ _ Hk)
    as (ev & data & Hin & Hr & Hn & _).
  exists ev, data. split; [exact Hin | split; [exact Hr | exact Hn]].
Defined.

Lemma other_identifiers_use_empty_key_witness :
  recognized fixture.EApp (Some (sample.uplinks 2 sample.t1))
  ∧ ttnpb.ApplicationIds "app1" ∈ events.Identifiers fixture.EApp
  ∧ (∀ gateway_id, ttnpb.ApplicationIds "app1" ≠ ttnpb.GatewayIds gateway_id)
  ∧ main.gateways (main.handle formatUTC main.initial fixture.EApp) !! ""
    = Some (main.newGateway "" (Some (sample.uplinks 2 sample.t1))).
Proof.
  assert (recognized fixture.EApp (Some (sample.uplinks 2 sample.t1))) as Hr
    by (split; reflexivity).
  assert (ttnpb.ApplicationIds "app1" ∈ events.Identifiers fixture.EApp) as Hin
    by (simpl; left).
  assert (∀ gateway_id, ttnpb.ApplicationIds "app1" ≠ ttnpb.GatewayIds gateway_id)
    as Hid by (intros gateway_id; discriminate).
  split; [exact Hr | split; [exact Hin | split; [exact Hid |]]].
  exact (other_identifiers_use_empty_key formatUTC main.initial fixture.EApp _ _
           Hr Hin Hid).
Defined.

Lemma return_reasons_witness :
  Client.result (Client.getEvents fixture.broken sample.client)
  = Client.Returned "recv: stream reset"
  ∧ ((∃ err, fixture.broken 0%nat = StreamErr err)
     ∨ ∃ pre r post, fixture.broken 0%nat = StreamOk (pre ++ r :: post)
                     ∧ Forall passes pre).
Proof.
  assert (Client.result (Client.getEvents fixture.broken sample.client)
          = Client.Returned "recv: stream reset") as Hm by reflexivity.
  split; [exact Hm |].
  destruct (return_reasons fixture.broken sample.client _ Hm)
    as [(err & H0 & _) | [(pre & err & post & H0 & Hp & _)
                         | (pre & pEvent & err & post & H0 & Hp & _)]].
  - left. exists err. exact H0.
  - right. exists pre, (RecvErr err), post. split; [exact H0 | exact Hp].
  - right. exists pre, (RecvOk pEvent), post. split; [exact H0 | exact Hp].
Defined.
